(** * JuiceFS command layer: mount configuration, metadata messages and
      option reordering (cmd/mount.go, cmd/flags.go, cmd/main.go)

    The Go sources are embedded as Rocq functions.  Target platform of the
    model: GOOS=linux, GOARCH=amd64, so [int] and [int64] are 64-bit two's
    complement integers, the path separator is [/] and the path-list
    separator is [:]. *)

From Stdlib Require Import ZArith String Ascii List Bool Lia Permutation.
From Stdlib Require Import SpecFloat.
From Stdlib Require Import Strings.Byte.
From stdpp Require Import base option gmap strings list.

Local Open Scope string_scope.
Local Open Scope Z_scope.

(* ===================================================================== *)
(** ** Go machine integers *)
(* ===================================================================== *)

Module GoInt.

(** Two's complement wrap-around of a mathematical integer to 64 bits. *)
Definition wrap (z : Z) : Z := (z + 2 ^ 63) mod 2 ^ 64 - 2 ^ 63.

Definition MinInt64 : Z := - 2 ^ 63.
Definition MaxInt64 : Z := 2 ^ 63 - 1.

Definition inRange (z : Z) : Prop := MinInt64 <= z <= MaxInt64.

(** [a * b] on int / int64. *)
Definition mul (a b : Z) : Z := wrap (a * b).

(** [a << n] on int (n a constant shift count below 64). *)
Definition shl (a n : Z) : Z := wrap (Z.shiftl a n).

(** [a / b] on int / int64: truncated toward zero. *)
Definition quot (a b : Z) : Z := wrap (Z.quot a b).

(** [int(x)] for [x : uint32] and [x : uint64 -> int64]-style conversions:
    the bit pattern is kept, the value re-read as a signed 64-bit integer. *)
Definition toInt (z : Z) : Z := wrap z.

Definition isUint32 (z : Z) : Prop := 0 <= z < 2 ^ 32.
Definition isUint64 (z : Z) : Prop := 0 <= z < 2 ^ 64.

End GoInt.

(* ===================================================================== *)
(** ** Package strings *)
(* ===================================================================== *)

Module Strs.

(** strings.HasPrefix *)
Definition HasPrefix (s pre : string) : bool := String.prefix pre s.

(** strings.Contains *)
Fixpoint Contains (s sub : string) : bool :=
  if String.prefix sub s then true
  else match s with
       | EmptyString => false
       | String _ s' => Contains s' sub
       end.

(** strings.HasSuffix *)
Definition HasSuffix (s suf : string) : bool :=
  let n := String.length s in
  let k := String.length suf in
  if (k <=? n)%nat then String.eqb (String.substring (n - k) k s) suf else false.

Definition inCutset (c : ascii) (cutset : string) : bool :=
  existsb (Ascii.eqb c) (list_ascii_of_string cutset).

(** strings.TrimLeft (byte-wise; the only cutset of the sources is "-"). *)
Fixpoint TrimLeft (s cutset : string) : string :=
  match s with
  | EmptyString => EmptyString
  | String c s' => if inCutset c cutset then TrimLeft s' cutset else s
  end.

(** strings.Split on a one-byte separator: [Split "" sep = [""]]. *)
Fixpoint Split (s : string) (sep : ascii) : list string :=
  match s with
  | EmptyString => [EmptyString]
  | String c s' =>
      if Ascii.eqb c sep then EmptyString :: Split s' sep
      else match Split s' sep with
           | hd :: tl => String c hd :: tl
           | [] => [String c EmptyString]
           end
  end.

(** strings.Join *)
Definition Join (elems : list string) (sep : string) : string :=
  String.concat sep elems.

End Strs.

(* ===================================================================== *)
(** ** Packages path and path/filepath (Unix) *)
(* ===================================================================== *)

Module filepath.

Definition Separator : ascii := "/"%char.
Definition PathListSeparator : ascii := ":"%char.

(** One step of Clean's scan over the path elements; the cleaned elements
    are kept with the last one first.  An empty element (doubled slash) and
    [.] are dropped; [..] removes the element before it when there is one to
    backtrack over, is dropped at the root of a rooted path, and is kept
    otherwise; any other element is appended. *)
Definition cleanStep (rooted : bool) (out : list string) (elem : string)
  : list string :=
  if String.eqb elem "" then out
  else if String.eqb elem "." then out
  else if String.eqb elem ".." then
    match out with
    | top :: below =>
        if String.eqb top ".." then ".." :: out else below
    | [] => if rooted then [] else [".."]
    end
  else elem :: out.

Definition cleanElems (rooted : bool) (elems : list string) : list string :=
  rev (fold_left (cleanStep rooted) elems []).

Definition render (rooted : bool) (elems : list string) : string :=
  if rooted then String Separator (Strs.Join elems "/")
  else match elems with
       | [] => "."
       | _ => Strs.Join elems "/"
       end.

Definition isRooted (path : string) : bool := Strs.HasPrefix path "/".

(** filepath.Clean *)
Definition Clean (path : string) : string :=
  if String.eqb path "" then "."
  else render (isRooted path) (cleanElems (isRooted path) (Strs.Split path Separator)).

(** filepath.Join: the elements from the first non-empty one on are joined
    with the separator and the result is cleaned; with no non-empty element
    the result is the empty string. *)
Fixpoint Join (elem : list string) : string :=
  match elem with
  | [] => ""
  | e :: rest =>
      if String.eqb e "" then Join rest
      else Clean (Strs.Join elem "/")
  end.

End filepath.

Example Clean_doc_1 : filepath.Clean "a//c" = "a/c".
Proof. reflexivity. Qed.
Example Clean_doc_2 : filepath.Clean "a/c/b/.." = "a/c".
Proof. reflexivity. Qed.
Example Clean_doc_3 : filepath.Clean "/../a/b/../././/c" = "/a/c".
Proof. reflexivity. Qed.
Example Clean_doc_4 : filepath.Clean "../../x/" = "../../x".
Proof. reflexivity. Qed.
Example Clean_doc_5 : filepath.Clean "a/.." = ".".
Proof. reflexivity. Qed.
Example Join_doc_1 : filepath.Join ["a"; "b/../c"; ""] = "a/c".
Proof. reflexivity. Qed.
Example Join_doc_2 : filepath.Join [""; ""] = "".
Proof. reflexivity. Qed.
Example Join_doc_3 : filepath.Join ["/var/jfsCache/"; "uuid"] = "/var/jfsCache/uuid".
Proof. reflexivity. Qed.

(* ===================================================================== *)
(** ** float64 and float32 (IEEE 754, through the Standard Library's
       [spec_float]) *)
(* ===================================================================== *)

Module GoFloat.

Definition float64 : Type := spec_float.
Definition float32 : Type := spec_float.

Definition signed (s : bool) (m : positive) : Z := if s then Z.neg m else Z.pos m.

(** [float32(x)]: round to nearest even at 24 bits of precision. *)
Definition toFloat32 (x : float64) : float32 :=
  match x with
  | S754_finite s m e => binary_normalize 24 128 (signed s m) e s
  | other => other
  end.

(** [x * y] on float64. *)
Definition mul (x y : float64) : float64 := SFmul 53 1024 x y.

(** [int64(x)] (and [time.Duration(x)]): the fraction is discarded; a value
    out of range, an infinity or a NaN gives the amd64 "integer indefinite"
    value, the least int64. *)
Definition toInt64 (x : float64) : Z :=
  match x with
  | S754_zero _ => 0
  | S754_finite s m e =>
      let v := if (0 <=? e) then Z.pos m * 2 ^ e else Z.pos m / 2 ^ (- e) in
      let v := if s then - v else v in
      if (GoInt.MinInt64 <=? v) && (v <=? GoInt.MaxInt64) then v else GoInt.MinInt64
  | _ => GoInt.MinInt64
  end.

(** The float64 literals of the sources. *)
Definition lit_0_0 : float64 := S754_zero false.
Definition lit_1_0 : float64 := S754_finite false 4503599627370496 (-52).
Definition lit_0_1 : float64 := S754_finite false 7205759403792794 (-56).
Definition lit_1e9 : float64 := S754_finite false 8388608000000000 (-23).

End GoFloat.

(* ===================================================================== *)
(** ** github.com/urfave/cli/v2: flags and the parsed context *)
(* ===================================================================== *)

Module cli.

(** The value a flag holds; the constructor is the flag's Go type
    (BoolFlag, IntFlag, Int64Flag, StringFlag, DurationFlag, Float64Flag). *)
Inductive FlagValue : Type :=
| BoolValue (b : bool)
| IntValue (n : Z)
| Int64Value (n : Z)
| StringValue (s : string)
| DurationValue (d : Z)
| Float64Value (x : GoFloat.float64).

Record Flag : Type := mkFlag {
  Name : string;
  Aliases : list string;
  Value : FlagValue   (* the default *)
}.

Definition BoolFlag (name : string) (aliases : list string) : Flag :=
  mkFlag name aliases (BoolValue false).
Definition IntFlag (name : string) (value : Z) : Flag :=
  mkFlag name [] (IntValue value).
Definition Int64Flag (name : string) (value : Z) : Flag :=
  mkFlag name [] (Int64Value value).
Definition StringFlag (name : string) (value : string) : Flag :=
  mkFlag name [] (StringValue value).
Definition DurationFlag (name : string) (value : Z) : Flag :=
  mkFlag name [] (DurationValue value).
Definition Float64Flag (name : string) (value : GoFloat.float64) : Flag :=
  mkFlag name [] (Float64Value value).

(** The type assertion of isFlag: is the flag a BoolFlag? *)
Definition isBoolFlag (f : Flag) : bool :=
  match Value f with BoolValue _ => true | _ => false end.

(** [flag.Names()] *)
Definition Names (f : Flag) : list string := Name f :: Aliases f.

Definition VersionFlag : Flag := BoolFlag "version" ["V"].
Definition HelpFlag : Flag := BoolFlag "help" ["h"].

Record Command : Type := mkCommand {
  cmdName : string;
  cmdFlags : list Flag
}.

Record App : Type := mkApp {
  appFlags : list Flag;
  appCommands : list Command
}.

(** A parsed context: the flags in scope (those of the command, then those
    of the application), the values the user gave, keyed by the flag's
    first name, and the positional arguments. *)
Record Context : Type := mkContext {
  flags : list Flag;
  given : gmap string FlagValue;
  args : list string
}.

Definition hasName (name : string) (f : Flag) : bool :=
  existsb (String.eqb name) (Names f).

Definition lookupFlag (name : string) (fs : list Flag) : option Flag :=
  find (hasName name) fs.

(** The current value of the flag called [name]: what the user gave, the
    flag's default otherwise; nothing when no flag has that name. *)
Definition value (c : Context) (name : string) : option FlagValue :=
  match lookupFlag name (flags c) with
  | Some f => Some (default (Value f) (given c !! Name f))
  | None => None
  end.

Definition IsSet (c : Context) (name : string) : bool :=
  match lookupFlag name (flags c) with
  | Some f => bool_decide (is_Some (given c !! Name f))
  | None => false
  end.

(** The typed getters give the zero value when no flag has the name or the
    flag is of another kind (the sources read every flag at its own kind). *)
Definition Bool (c : Context) (name : string) : bool :=
  match value c name with Some (BoolValue b) => b | _ => false end.
Definition Int (c : Context) (name : string) : Z :=
  match value c name with Some (IntValue n) => n | _ => 0 end.
Definition Int64 (c : Context) (name : string) : Z :=
  match value c name with Some (Int64Value n) => n | _ => 0 end.
Definition String (c : Context) (name : string) : string :=
  match value c name with Some (StringValue s) => s | _ => "" end.
Definition Duration (c : Context) (name : string) : Z :=
  match value c name with Some (DurationValue d) => d | _ => 0 end.
Definition Float64 (c : Context) (name : string) : GoFloat.float64 :=
  match value c name with Some (Float64Value x) => x | _ => GoFloat.lit_0_0 end.

End cli.

(* ===================================================================== *)
(** ** Package time *)
(* ===================================================================== *)

Module time.
Definition Second : Z := 1000000000.
Definition Hour : Z := 3600 * Second.
End time.

(* ===================================================================== *)
(** ** cmd/flags.go *)
(* ===================================================================== *)

Definition globalFlags : list cli.Flag :=
  [ cli.BoolFlag "verbose" ["debug"; "v"];
    cli.BoolFlag "quiet" ["q"];
    cli.BoolFlag "trace" [];
    cli.BoolFlag "no-agent" [];
    cli.BoolFlag "no-color" [] ].

(** The [switch runtime.GOOS] at the head of clientFlags: [None] is the
    fatal exit taken when the home directory cannot be found. *)
Definition defaultCacheDir (goos : string) (userHomeDir : option string)
  : option string :=
  if String.eqb goos "darwin" || String.eqb goos "windows" then
    match userHomeDir with
    | Some homeDir => Some (filepath.Join [homeDir; ".juicefs"; "cache"])
    | None => None
    end
  else Some "/var/jfsCache".

Definition clientFlags (defaultCacheDir : string) : list cli.Flag :=
  [ cli.StringFlag "bucket" "";
    cli.IntFlag "get-timeout" 60;
    cli.IntFlag "put-timeout" 60;
    cli.IntFlag "io-retries" 30;
    cli.IntFlag "max-uploads" 20;
    cli.IntFlag "max-deletes" 2;
    cli.IntFlag "buffer-size" 300;
    cli.Int64Flag "upload-limit" 0;
    cli.Int64Flag "download-limit" 0;
    cli.IntFlag "prefetch" 1;
    cli.BoolFlag "writeback" [];
    cli.DurationFlag "upload-delay" 0;
    cli.StringFlag "cache-dir" defaultCacheDir;
    cli.IntFlag "cache-size" (Z.shiftl 100 10);
    cli.Float64Flag "free-space-ratio" GoFloat.lit_0_1;
    cli.BoolFlag "cache-partial-only" [];
    cli.DurationFlag "backup-meta" time.Hour;
    cli.BoolFlag "read-only" [];
    cli.BoolFlag "no-bgjob" [];
    cli.Float64Flag "open-cache" GoFloat.lit_0_0;
    cli.StringFlag "subdir" "" ].

Definition shareInfoFlags : list cli.Flag :=
  [ cli.StringFlag "metrics" "127.0.0.1:9567";
    cli.StringFlag "consul" "127.0.0.1:8500";
    cli.BoolFlag "no-usage-report" [] ].

Definition cacheFlags (defaultEntryCache : GoFloat.float64) : list cli.Flag :=
  [ cli.Float64Flag "attr-cache" GoFloat.lit_1_0;
    cli.Float64Flag "entry-cache" defaultEntryCache;
    cli.Float64Flag "dir-entry-cache" GoFloat.lit_1_0 ].

Definition expandFlags (compoundFlags : list (list cli.Flag)) : list cli.Flag :=
  fold_left (fun flags flag => (flags ++ flag)%list) compoundFlags [].

(* ===================================================================== *)
(** ** How a Go call ends *)
(* ===================================================================== *)

Inductive Outcome (A : Type) : Type :=
| Returned (a : A)            (* the call returns *)
| Panicked (why : string)     (* run-time panic: index out of range, failed type assertion *)
| Exited (why : string).      (* logger.Fatalf: the process exits *)

Arguments Returned {A} a.
Arguments Panicked {A} why.
Arguments Exited {A} why.

#[global] Instance Outcome_ret : MRet Outcome := fun A a => Returned a.

#[global] Instance Outcome_bind : MBind Outcome := fun A B k o =>
  match o with
  | Returned a => k a
  | Panicked why => Panicked why
  | Exited why => Exited why
  end.

(** A Go [error]: [None] is [nil]. *)
Definition error : Type := option string.

(* ===================================================================== *)
(** ** Declarations of pkg/meta and pkg/chunk that the command layer uses *)
(* ===================================================================== *)

Module meta.

(** The fields of meta.Format that cmd/mount.go reads or writes. *)
Record Format : Type := mkFormat {
  Name : string;
  UUID : string;
  BlockSize : Z;          (* int, in KiB *)
  Compression : string;
  Bucket : string
}.

(** meta.Config, as the composite literal of getMetaConf and the assignment
    in mount fill it. *)
Record Config : Type := mkConfig {
  Retries : Z;
  Strict : bool;
  ReadOnly : bool;
  NoBGJob : bool;
  OpenCache : Z;          (* time.Duration *)
  MountPoint : string;
  Subdir : string;
  MaxDeletes : Z;
  CaseInsensi : bool
}.

(** The two message types mount registers a handler for. *)
Inductive MsgType : Type := DeleteChunk | CompactChunk.

#[global] Instance MsgType_eq_dec : EqDecision MsgType.
Proof. solve_decision. Defined.

#[global] Instance MsgType_countable : Countable MsgType.
Proof.
  refine (inj_countable' (fun t => match t with DeleteChunk => false | CompactChunk => true end)
                         (fun b => if b then CompactChunk else DeleteChunk) _).
  intros []; reflexivity.
Defined.

End meta.

Module chunk.

(** Modelled from the spec: the declaration of chunk.Config is in pkg/chunk,
    which is not among the sources.  The fields are those the composite
    literal of getChunkConf and the assignment in mount name, and MaxDeletes,
    which the configuration surface of the specification enumerates
    ({BlockSize, Compress, GetTimeout, PutTimeout, MaxUpload, MaxDeletes,
    Writeback, UploadDelay, Prefetch, BufferSize, UploadLimit, DownloadLimit,
    CacheDir, CacheSize, FreeSpace, CacheFullBlock, AutoCreate}). *)
Record Config : Type := mkConfig {
  BlockSize : Z;               (* int *)
  Compress : string;
  GetTimeout : Z;              (* time.Duration *)
  PutTimeout : Z;              (* time.Duration *)
  MaxUpload : Z;               (* int *)
  MaxDeletes : Z;              (* int *)
  Writeback : bool;
  UploadDelay : Z;             (* time.Duration *)
  Prefetch : Z;                (* int *)
  BufferSize : Z;              (* int *)
  UploadLimit : Z;             (* int64, bytes per second *)
  DownloadLimit : Z;           (* int64, bytes per second *)
  CacheDir : string;
  CacheSize : Z;               (* int64 *)
  FreeSpace : GoFloat.float32;
  CacheMode : Z;               (* os.FileMode *)
  CacheFullBlock : bool;
  AutoCreate : bool
}.

Definition withCacheDir (d : string) (c : Config) : Config :=
  mkConfig (BlockSize c) (Compress c) (GetTimeout c) (PutTimeout c) (MaxUpload c)
           (MaxDeletes c) (Writeback c) (UploadDelay c) (Prefetch c) (BufferSize c)
           (UploadLimit c) (DownloadLimit c) d (CacheSize c) (FreeSpace c)
           (CacheMode c) (CacheFullBlock c) (AutoCreate c).

Definition withUploadDelay (d : Z) (c : Config) : Config :=
  mkConfig (BlockSize c) (Compress c) (GetTimeout c) (PutTimeout c) (MaxUpload c)
           (MaxDeletes c) (Writeback c) d (Prefetch c) (BufferSize c)
           (UploadLimit c) (DownloadLimit c) (CacheDir c) (CacheSize c) (FreeSpace c)
           (CacheMode c) (CacheFullBlock c) (AutoCreate c).

End chunk.

(* ===================================================================== *)
(** ** cmd/mount.go: building the configurations *)
(* ===================================================================== *)

Definition runtime_GOOS : string := "linux".

(** getFormat, on a format that [metaCli.Load] returned. *)
Definition getFormat (c : cli.Context) (loaded : meta.Format) : meta.Format :=
  if cli.IsSet c "bucket" then
    meta.mkFormat (meta.Name loaded) (meta.UUID loaded) (meta.BlockSize loaded)
                  (meta.Compression loaded) (cli.String c "bucket")
  else loaded.

Definition getMetaConf (c : cli.Context) (mp : string) (readOnly : bool)
  : meta.Config :=
  {| meta.Retries := 10;
     meta.Strict := true;
     meta.ReadOnly := readOnly;
     meta.NoBGJob := cli.Bool c "no-bgjob";
     meta.OpenCache :=
       GoFloat.toInt64 (GoFloat.mul (cli.Float64 c "open-cache") GoFloat.lit_1e9);
     meta.MountPoint := mp;
     meta.Subdir := cli.String c "subdir";
     meta.MaxDeletes := cli.Int c "max-deletes";
     meta.CaseInsensi := false |}.

Section GetChunkConf.

(** utils.SplitDir is declared in pkg/utils, which is not among the sources:
    it is a parameter of the model. *)
Variable SplitDir : string -> list string.

(** The composite literal of getChunkConf.  A field the literal does not
    name (MaxDeletes, UploadDelay) has Go's zero value. *)
Definition chunkConfLiteral (c : cli.Context) (format : meta.Format)
  : chunk.Config :=
  {| chunk.BlockSize := GoInt.mul (meta.BlockSize format) 1024;
     chunk.Compress := meta.Compression format;
     chunk.GetTimeout := GoInt.mul time.Second (cli.Int c "get-timeout");
     chunk.PutTimeout := GoInt.mul time.Second (cli.Int c "put-timeout");
     chunk.MaxUpload := cli.Int c "max-uploads";
     chunk.MaxDeletes := 0;
     chunk.Writeback := cli.Bool c "writeback";
     chunk.UploadDelay := 0;
     chunk.Prefetch := cli.Int c "prefetch";
     chunk.BufferSize := GoInt.shl (cli.Int c "buffer-size") 20;
     chunk.UploadLimit := GoInt.quot (GoInt.mul (cli.Int64 c "upload-limit") 1000000) 8;
     chunk.DownloadLimit := GoInt.quot (GoInt.mul (cli.Int64 c "download-limit") 1000000) 8;
     chunk.CacheDir := cli.String c "cache-dir";
     chunk.CacheSize := cli.Int c "cache-size";
     chunk.FreeSpace := GoFloat.toFloat32 (cli.Float64 c "free-space-ratio");
     chunk.CacheMode := 384;   (* os.FileMode(0600) *)
     chunk.CacheFullBlock := negb (cli.Bool c "cache-partial-only");
     chunk.AutoCreate := true |}.

Definition getChunkConf (c : cli.Context) (format : meta.Format) : chunk.Config :=
  let chunkConf := chunkConfLiteral c format in
  if negb (String.eqb (chunk.CacheDir chunkConf) "memory") then
    let ds := SplitDir (chunk.CacheDir chunkConf) in
    let ds := map (fun d => filepath.Join [d; meta.UUID format]) ds in
    chunk.withCacheDir
      (Strs.Join ds (String filepath.PathListSeparator EmptyString)) chunkConf
  else chunkConf.

(** What mount has built when it calls newStore: the lines it logged, the
    metadata configuration, the format, and the chunk configuration whose
    copy [chunk.NewCachedStore] receives. *)
Record Mounted : Type := mkMounted {
  logged : list (string * string);     (* level, message *)
  metaConf : meta.Config;
  format : meta.Format;
  chunkConf : chunk.Config
}.

Definition warnUploadDelay : string * string :=
  ("warning", "delayed upload only work in writeback mode").

(** mount, from the reading of the arguments to the call of newStore;
    [loaded] is the format that [metaCli.Load] returned. *)
Definition mount (c : cli.Context) (loaded : meta.Format) : Mounted :=
  let mp := nth 1 (cli.args c) "" in
  let readOnly :=
    fold_left (fun ro o => if String.eqb o "ro" then true else ro)
              (Strs.Split (cli.String c "o") ","%char) (cli.Bool c "read-only") in
  let metaConf := getMetaConf c mp readOnly in
  let metaConf :=
    meta.mkConfig (meta.Retries metaConf) (meta.Strict metaConf) (meta.ReadOnly metaConf)
                  (meta.NoBGJob metaConf) (meta.OpenCache metaConf)
                  (meta.MountPoint metaConf) (meta.Subdir metaConf)
                  (meta.MaxDeletes metaConf)
                  (Strs.HasSuffix mp ":" && String.eqb runtime_GOOS "windows") in
  let format := getFormat c loaded in
  let log :=
    if negb (cli.Bool c "writeback") && cli.IsSet c "upload-delay"
    then [warnUploadDelay] else [] in
  let chunkConf := getChunkConf c format in
  let chunkConf := chunk.withUploadDelay (cli.Duration c "upload-delay") chunkConf in
  mkMounted log metaConf format chunkConf.

End GetChunkConf.

(* ===================================================================== *)
(** ** cmd/mount.go: the handlers of the metadata engine's messages *)
(* ===================================================================== *)

Section MetaMsg.

(** meta.Slice and the state behind the chunk store (cache and object
    storage) are fixed by packages that are not among the sources. *)
Variable Slice : Type.
Variable StoreState : Type.

(** The arguments of a message are [interface{}] values. *)
Inductive any : Type :=
| AnyUint64 (v : Z)
| AnyUint32 (v : Z)
| AnyInt (v : Z)
| AnyString (v : string)
| AnySlices (v : list Slice).

(** The interface chunk.ChunkStore, at the method the handlers call. *)
Record ChunkStore : Type := mkChunkStore {
  Remove : Z -> Z -> StoreState -> error * StoreState
}.

(** vfs.Compact *)
Variable Compact :
  chunk.Config -> ChunkStore -> list Slice -> Z -> StoreState -> error * StoreState.

(** What a handler runs in: the chunk configuration that mount's
    [chunkConf] points to, and the state behind the store. *)
Record World : Type := mkWorld {
  chunkConfCell : chunk.Config;
  storeState : StoreState
}.

Definition MsgCallback : Type := list any -> World -> Outcome (error * World).

(** [args[i]] *)
Definition index (args : list any) (i : nat) : Outcome any :=
  match nth_error args i with
  | Some a => Returned a
  | None => Panicked "index out of range"
  end.

(** The type assertions [a.(uint64)], [a.(uint32)] and [a.([]meta.Slice)]. *)
Definition assertUint64 (a : any) : Outcome Z :=
  match a with AnyUint64 v => Returned v | _ => Panicked "interface conversion" end.
Definition assertUint32 (a : any) : Outcome Z :=
  match a with AnyUint32 v => Returned v | _ => Panicked "interface conversion" end.
Definition assertSlices (a : any) : Outcome (list Slice) :=
  match a with AnySlices v => Returned v | _ => Panicked "interface conversion" end.

Definition inWorld (w : World) (r : error * StoreState) : error * World :=
  (fst r, mkWorld (chunkConfCell w) (snd r)).

(** The handler of meta.DeleteChunk. *)
Definition onDeleteChunk (store : ChunkStore) : MsgCallback := fun args w =>
  a0 ← index args 0;
  chunkid ← assertUint64 a0;
  a1 ← index args 1;
  size ← assertUint32 a1;
  Returned (inWorld w (Remove store chunkid (GoInt.toInt size) (storeState w))).

(** The handler of meta.CompactChunk. *)
Definition onCompactChunk (store : ChunkStore) : MsgCallback := fun args w =>
  a0 ← index args 0;
  slices ← assertSlices a0;
  a1 ← index args 1;
  chunkid ← assertUint64 a1;
  Returned (inWorld w (Compact (chunkConfCell w) store slices chunkid (storeState w))).

(** Modelled from the spec: the registry behind [m.OnMsg] is in pkg/meta,
    which is not among the sources: a callback registry keyed by message
    type; a message is delivered to the callback registered for its type,
    whose error is the error the metadata engine gets back. *)
Definition OnMsg (m : gmap meta.MsgType MsgCallback) (mtype : meta.MsgType)
    (cb : MsgCallback) : gmap meta.MsgType MsgCallback :=
  <[mtype := cb]> m.

Definition deliver (m : gmap meta.MsgType MsgCallback) (mtype : meta.MsgType)
    (args : list any) (w : World) : option (Outcome (error * World)) :=
  match m !! mtype with
  | Some cb => Some (cb args w)
  | None => None
  end.

Definition registerMetaMsg (m : gmap meta.MsgType MsgCallback) (store : ChunkStore)
  : gmap meta.MsgType MsgCallback :=
  let m := OnMsg m meta.DeleteChunk (onDeleteChunk store) in
  OnMsg m meta.CompactChunk (onCompactChunk store).

End MetaMsg.

Arguments AnyUint64 {Slice} v.
Arguments AnyUint32 {Slice} v.
Arguments AnyInt {Slice} v.
Arguments AnyString {Slice} v.
Arguments AnySlices {Slice} v.
Arguments mkChunkStore {StoreState} _.
Arguments Remove {StoreState} _ _ _ _.
Arguments mkWorld {StoreState} _ _.
Arguments chunkConfCell {StoreState} _.
Arguments storeState {StoreState} _.
Arguments inWorld {StoreState} _ _.
Arguments deliver {Slice StoreState} _ _ _ _.
Arguments registerMetaMsg {Slice StoreState} _ _ _.

(* ===================================================================== *)
(** ** cmd/main.go: option reordering *)
(* ===================================================================== *)

Fixpoint stringContains (s : list string) (e : string) : bool :=
  match s with
  | [] => false
  | item :: rest => if String.eqb item e then true else stringContains rest e
  end.

(** [option == name || strings.HasPrefix(option, name+"=")] *)
Definition matchesName (option name : string) : bool :=
  String.eqb option name || Strs.HasPrefix option (name ++ "=")%string.

(** The loop of isFlag over the flags, [option] already trimmed: the first
    flag one of whose names matches decides. *)
Fixpoint isFlagIn (flags : list cli.Flag) (option : string) : bool * bool :=
  match flags with
  | [] => (false, false)
  | flag :: rest =>
      if existsb (matchesName option) (cli.Names flag)
      then (true, negb (cli.isBoolFlag flag) && negb (Strs.Contains option "="))
      else isFlagIn rest option
  end.

Definition isFlag (flags : list cli.Flag) (option : string) : bool * bool :=
  if negb (Strs.HasPrefix option "-") then (false, false)
  else isFlagIn flags (Strs.TrimLeft option "-").

(** The first loop of reorderOptions, from index [i] on ([args] is what is
    left from there): a recognised flag goes to [newArgs], with the next
    argument when it takes a value; anything else goes to [others]. *)
Fixpoint scanGlobal (globalFlags : list cli.Flag) (args newArgs others : list string)
  : Outcome (list string * list string) :=
  match args with
  | [] => Returned (newArgs, others)
  | option :: rest =>
      let '(ok, hasValue) := isFlag globalFlags option in
      if ok then
        if hasValue then
          match rest with
          | v :: rest' => scanGlobal globalFlags rest' (newArgs ++ [option; v])%list others
          | [] => Panicked "index out of range"
          end
        else scanGlobal globalFlags rest (newArgs ++ [option])%list others
      else scanGlobal globalFlags rest newArgs (others ++ [option])%list
  end.

(** The second loop; [all] is the whole slice the loop ranges over, which
    the test for [--generate-bash-completion] reads. *)
Fixpoint scanCommand (cmdFlags : list cli.Flag) (all args newArgs others : list string)
  : Outcome (list string * list string) :=
  match args with
  | [] => Returned (newArgs, others)
  | option :: rest =>
      let '(ok, hasValue) := isFlag cmdFlags option in
      if ok then
        if hasValue then
          match rest with
          | v :: rest' => scanCommand cmdFlags all rest' (newArgs ++ [option; v])%list others
          | [] => Panicked "index out of range"
          end
        else scanCommand cmdFlags all rest (newArgs ++ [option])%list others
      else if Strs.HasPrefix option "-"
              && negb (stringContains all "--generate-bash-completion")
      then Exited ("unknown option: " ++ option)%string
      else scanCommand cmdFlags all rest newArgs (others ++ [option])%list
  end.

(** [for _, c := range app.Commands { if c.Name == cmdName { cmd = c } }] *)
Definition findCommand (commands : list cli.Command) (cmdName : string)
  : option cli.Command :=
  fold_left (fun cmd c => if String.eqb (cli.cmdName c) cmdName then Some c else cmd)
            commands None.

Definition reorderOptions (app : cli.App) (args : list string) : Outcome (list string) :=
  match args with
  | [] => Panicked "index out of range"
  | arg0 :: rest =>
      let globalFlags := (cli.appFlags app ++ [cli.VersionFlag])%list in
      '(newArgs, others) ← scanGlobal globalFlags rest [arg0] [];
      match others with
      | [] => Returned newArgs
      | cmdName :: args' =>
          match findCommand (cli.appCommands app) cmdName with
          | None => Returned (newArgs ++ others)%list
          | Some cmd =>
              let newArgs := (newArgs ++ [cmdName])%list in
              let cmdFlags := (cli.cmdFlags cmd ++ [cli.HelpFlag])%list in
              '(newArgs, others) ← scanCommand cmdFlags args' args' newArgs [];
              Returned (newArgs ++ others)%list
          end
      end
  end.

(* ===================================================================== *)
(** ** The cached chunk store (pkg/chunk) *)
(* ===================================================================== *)

Module cachedstore.

(** Modelled from the spec: the cached chunk store (pkg/chunk) and the object
    storage behind it (pkg/object) are not among the sources.  The model
    follows sections 3, 4, 6 and 7 of the specification, one operation at a
    time (no concurrency), on an object storage that is reachable: the
    transient failures that the retry policy absorbs are not modelled, so the
    only error the storage gives is not-found.

    A block is identified by (chunk id, block index, size); the index is
    assigned per chunk, in sealing order, so a block id is never reused. *)
Definition BlockID : Type := Z * nat * Z.

Inductive IOError : Type := TransientIO | NotFound | Unauthorized | InvalidArgument.

(** *** Object storage adapter: put, get, delete *)

Definition put (key : BlockID) (data : list byte) (r : gmap BlockID (list byte))
  : option IOError * gmap BlockID (list byte) :=
  (None, <[key := data]> r).

Definition get (key : BlockID) (r : gmap BlockID (list byte)) : IOError + list byte :=
  match r !! key with
  | Some data => inr data
  | None => inl NotFound
  end.

Definition delete (key : BlockID) (r : gmap BlockID (list byte))
  : option IOError * gmap BlockID (list byte) :=
  match r !! key with
  | Some _ => (None, base.delete key r)
  | None => (Some NotFound, r)
  end.

(** *** Data model *)

Inductive EntryState : Type := Staging | Clean.

Record Slice : Type := mkSlice {
  sliceOff : nat;                 (* offset within the chunk *)
  sliceLen : nat;
  sliceBlocks : list BlockID      (* the blocks holding its bytes, in order *)
}.

Record Store : Type := mkStore {
  remote : gmap BlockID (list byte);                (* object storage *)
  cache : gmap BlockID (list byte * EntryState);    (* local cache *)
  buffers : gmap Z (list (nat * list byte));        (* open slice buffer per chunk, oldest write first *)
  slices : gmap Z (list Slice);                     (* sealed slices per chunk, most recently sealed first *)
  nextIndex : gmap Z nat                            (* block indexes given out per chunk *)
}.

Definition empty : Store := mkStore ∅ ∅ ∅ ∅ ∅.

Definition blockSize (conf : chunk.Config) : nat := Z.to_nat (chunk.BlockSize conf).

(** *** Local cache manager *)

Definition stage (id : BlockID) (data : list byte)
    (c : gmap BlockID (list byte * EntryState)) : gmap BlockID (list byte * EntryState) :=
  <[id := (data, Staging)]> c.

Definition confirmDurable (id : BlockID)
    (c : gmap BlockID (list byte * EntryState)) : gmap BlockID (list byte * EntryState) :=
  alter (fun e => (e.1, Clean)) id c.

Definition lookup (id : BlockID) (c : gmap BlockID (list byte * EntryState))
  : option (list byte) :=
  fst <$> c !! id.

(** Eviction reclaims clean entries only; which ones (least recently used
    first, until the space is back under the budget) is left to the caller:
    [victims] is any choice. *)
Definition evictOne (c : gmap BlockID (list byte * EntryState)) (id : BlockID)
  : gmap BlockID (list byte * EntryState) :=
  match c !! id with
  | Some (_, Clean) => base.delete id c
  | _ => c
  end.

Definition evict (victims : list BlockID) (s : Store) : Store :=
  mkStore (remote s) (fold_left evictOne victims (cache s)) (buffers s) (slices s)
          (nextIndex s).

(** *** Upload pipeline *)

(** Upload of one staged block: put, then confirmDurable. *)
Definition upload (id : BlockID) (s : Store) : Store :=
  match cache s !! id with
  | Some (data, Staging) =>
      match put id data (remote s) with
      | (None, r) => mkStore r (confirmDurable id (cache s)) (buffers s) (slices s)
                             (nextIndex s)
      | (Some _, _) => s
      end
  | _ => s
  end.

(** The fixed-size blocks of a sealed slice: block [j] holds the bytes from
    [j * B] on, at most [B] of them. *)
Definition numBlocks (B n : nat) : nat := (n + B - 1) / B.

Definition blocksOf (B : nat) (data : list byte) : list (list byte) :=
  map (fun j => take B (drop (j * B) data)) (seq 0 (numBlocks B (length data))).

Definition blockIDs (c : Z) (first : nat) (pieces : list (list byte)) : list BlockID :=
  imap (fun i piece => (c, (first + i)%nat, Z.of_nat (length piece))) pieces.

(** Sealing one buffered write of chunk [c]: its blocks are staged in the
    cache and, unless the store is in write-back mode, uploaded at once. *)
Definition seal (conf : chunk.Config) (c : Z) (s : Store) (w : nat * list byte) : Store :=
  let pieces := blocksOf (blockSize conf) w.2 in
  let first := default 0%nat (nextIndex s !! c) in
  let ids := blockIDs c first pieces in
  let staged := fold_left (fun ca b => stage b.1 b.2 ca) (zip ids pieces) (cache s) in
  let s1 := mkStore (remote s) staged (buffers s)
              (<[c := mkSlice w.1 (length w.2) ids :: default [] (slices s !! c)]> (slices s))
              (<[c := (first + length pieces)%nat]> (nextIndex s)) in
  if chunk.Writeback conf then s1 else fold_left (fun st id => upload id st) ids s1.

(** *** Operations of the chunk store *)

Definition write (c : Z) (off : nat) (data : list byte) (s : Store)
  : option IOError * Store :=
  match data with
  | [] => (Some InvalidArgument, s)
  | _ => (None, mkStore (remote s) (cache s)
                  (<[c := (default [] (buffers s !! c) ++ [(off, data)])%list]> (buffers s))
                  (slices s) (nextIndex s))
  end.

Definition flush (conf : chunk.Config) (c : Z) (s : Store) : option IOError * Store :=
  let s1 := fold_left (seal conf c) (default [] (buffers s !! c)) s in
  (None, mkStore (remote s1) (cache s1) (base.delete c (buffers s1)) (slices s1)
           (nextIndex s1)).

(** A block for a read: the cache first, the object storage on a miss; a
    downloaded block is put in the cache when [keep] says so. *)
Definition fetch (keep : bool) (id : BlockID) (s : Store)
  : (IOError + list byte) * Store :=
  match lookup id (cache s) with
  | Some data => (inr data, s)
  | None =>
      match get id (remote s) with
      | inr data =>
          (inr data,
           if keep
           then mkStore (remote s) (<[id := (data, Clean)]> (cache s)) (buffers s)
                        (slices s) (nextIndex s)
           else s)
      | inl e => (inl e, s)
      end
  end.

(** The most recently sealed slice that covers position [p]. *)
Definition covers (p : nat) (sl : Slice) : bool :=
  (sliceOff sl <=? p)%nat && (p <? sliceOff sl + sliceLen sl)%nat.

Definition locate (sls : list Slice) (p : nat) : option Slice :=
  find (covers p) sls.

(** Admission of a downloaded block (CacheFullBlock): with the knob off a
    block is cached only when the read [off, off+len) takes a part of it. *)
Definition admits (conf : chunk.Config) (off len : nat) (sl : Slice) (j : nat) : bool :=
  let start := (sliceOff sl + j * blockSize conf)%nat in
  let stop := Nat.min (start + blockSize conf) (sliceOff sl + sliceLen sl) in
  chunk.CacheFullBlock conf || negb ((off <=? start)%nat && (stop <=? off + len)%nat).

Definition readByte (conf : chunk.Config) (c : Z) (off len p : nat) (s : Store)
  : (IOError + byte) * Store :=
  match locate (default [] (slices s !! c)) p with
  | None => (inl NotFound, s)
  | Some sl =>
      let k := (p - sliceOff sl)%nat in
      let j := (k / blockSize conf)%nat in
      match sliceBlocks sl !! j with
      | None => (inl NotFound, s)
      | Some id =>
          match fetch (admits conf off len sl j) id s with
          | (inr data, s1) =>
              match data !! (k mod blockSize conf)%nat with
              | Some b => (inr b, s1)
              | None => (inl NotFound, s1)
              end
          | (inl e, s1) => (inl e, s1)
          end
      end
  end.

Fixpoint readFrom (conf : chunk.Config) (c : Z) (off len p n : nat) (s : Store)
  : (IOError + list byte) * Store :=
  match n with
  | O => (inr [], s)
  | S n' =>
      match readByte conf c off len p s with
      | (inl e, s1) => (inl e, s1)
      | (inr b, s1) =>
          match readFrom conf c off len (S p) n' s1 with
          | (inl e, s2) => (inl e, s2)
          | (inr bs, s2) => (inr (b :: bs), s2)
          end
      end
  end.

Definition read (conf : chunk.Config) (c : Z) (off len : nat) (s : Store)
  : (IOError + list byte) * Store :=
  readFrom conf c off len off len s.

(** remove: the blocks of the chunk with the given size are deleted from
    the cache and from the object storage; not-found from the storage is
    treated as success, any other error is returned. *)
Definition removeBlock (acc : option IOError * Store) (id : BlockID)
  : option IOError * Store :=
  match acc with
  | (Some e, s) => (Some e, s)
  | (None, s) =>
      let ca := base.delete id (cache s) in
      match delete id (remote s) with
      | (None, r) => (None, mkStore r ca (buffers s) (slices s) (nextIndex s))
      | (Some NotFound, r) => (None, mkStore r ca (buffers s) (slices s) (nextIndex s))
      | (Some e, r) => (Some e, mkStore r ca (buffers s) (slices s) (nextIndex s))
      end
  end.

Definition addressed (chunkID blockSize : Z) (s : Store) : list BlockID :=
  map (fun i => (chunkID, i, blockSize)) (seq 0 (default 0%nat (nextIndex s !! chunkID))).

Definition remove (chunkID blockSize : Z) (s : Store) : option IOError * Store :=
  fold_left removeBlock (addressed chunkID blockSize s) (None, s).

Definition errorOf (e : option IOError) : error :=
  match e with
  | None => None
  | Some TransientIO => Some "transient I/O failure"
  | Some NotFound => Some "not found"
  | Some Unauthorized => Some "unauthorized"
  | Some InvalidArgument => Some "invalid argument"
  end.

(** The store behind the interface chunk.ChunkStore. *)
Definition asChunkStore : ChunkStore Store :=
  mkChunkStore (fun chunkid length s =>
                  let r := remove chunkid length s in (errorOf r.1, r.2)).

(** *** Histories: what the callers do, and what was written *)

Inductive Op : Type :=
| OpWrite (c : Z) (off : nat) (data : list byte)
| OpFlush (c : Z)
| OpUpload (id : BlockID)               (* a delayed upload fires *)
| OpEvict (victims : list BlockID)      (* the cache reclaims space *)
| OpRead (c : Z) (off len : nat).

Definition step (conf : chunk.Config) (s : Store) (o : Op) : Store :=
  match o with
  | OpWrite c off data => (write c off data s).2
  | OpFlush c => (flush conf c s).2
  | OpUpload id => upload id s
  | OpEvict victims => evict victims s
  | OpRead c off len => (read conf c off len s).2
  end.

Definition run (conf : chunk.Config) (ops : list Op) : Store :=
  fold_left (step conf) ops empty.

(** What a history has written: per chunk the writes not yet flushed, and
    per chunk and position the last byte written and flushed. *)
Record Written : Type := mkWritten {
  pending : Z -> list (nat * list byte);
  flushed : Z -> nat -> option byte
}.

Definition overwrite (f : nat -> option byte) (w : nat * list byte) : nat -> option byte :=
  fun p => if (w.1 <=? p)%nat && (p <? w.1 + length w.2)%nat
           then w.2 !! (p - w.1)%nat else f p.

Definition record (h : Written) (o : Op) : Written :=
  match o with
  | OpWrite c off data =>
      match data with
      | [] => h
      | _ => mkWritten (fun c' => if decide (c' = c) then (pending h c ++ [(off, data)])%list
                                  else pending h c')
                       (flushed h)
      end
  | OpFlush c =>
      mkWritten (fun c' => if decide (c' = c) then [] else pending h c')
                (fun c' => if decide (c' = c) then fold_left overwrite (pending h c) (flushed h c)
                           else flushed h c')
  | _ => h
  end.

Definition written (ops : list Op) : Written :=
  fold_left record ops (mkWritten (fun _ => []) (fun _ _ => None)).

End cachedstore.

(* ===================================================================== *)
(** ** Vocabulary of the statements *)
(* ===================================================================== *)

(** cmdMount of cmd/mount.go, at its name and flags; mount_flags is
    declared in the platform file of the mount command, which is not among
    the sources. *)
Definition cmdMount (mount_flags : list cli.Flag) (defaultCacheDir : string)
  : cli.Command :=
  cli.mkCommand "mount"
    (expandFlags [mount_flags; clientFlags defaultCacheDir; shareInfoFlags]).

(** The context of a run of the mount command: the flags of the command,
    then those of the application. *)
Definition mountContext (mount_flags : list cli.Flag) (defaultCacheDir : string)
    (given : gmap string cli.FlagValue) (args : list string) : cli.Context :=
  cli.mkContext (cli.cmdFlags (cmdMount mount_flags defaultCacheDir) ++ globalFlags)%list
                given args.

(** A Linux run with no flag of the platform file in play. *)
Definition linuxMount (given : gmap string cli.FlagValue) : cli.Context :=
  mountContext [cli.mkFlag "d" ["background"] (cli.BoolValue false); cli.StringFlag "o" ""]
               "/var/jfsCache" given ["redis://localhost"; "/mnt/jfs"].

Definition sampleFormat : meta.Format :=
  meta.mkFormat "myjfs" "0d6a3ed1-7e2c-4b7f-9c58-6c3f1f0e2a11" 4096 "none" "".

(** The same context with one more value given by the user. *)
Definition withGiven (c : cli.Context) (name : string) (v : cli.FlagValue) : cli.Context :=
  cli.mkContext (cli.flags c) (<[name := v]> (cli.given c)) (cli.args c).

(** The knobs of the configuration surface the specification enumerates. *)
Inductive Knob : Type :=
| KBlockSize | KCompress | KGetTimeout | KPutTimeout | KMaxUpload | KMaxDeletes
| KWriteback | KUploadDelay | KPrefetch | KBufferSize | KUploadLimit
| KDownloadLimit | KCacheDir | KCacheSize | KFreeSpace | KCacheFullBlock
| KAutoCreate.

Definition knob (k : Knob) (conf : chunk.Config) : cli.FlagValue :=
  match k with
  | KBlockSize => cli.IntValue (chunk.BlockSize conf)
  | KCompress => cli.StringValue (chunk.Compress conf)
  | KGetTimeout => cli.DurationValue (chunk.GetTimeout conf)
  | KPutTimeout => cli.DurationValue (chunk.PutTimeout conf)
  | KMaxUpload => cli.IntValue (chunk.MaxUpload conf)
  | KMaxDeletes => cli.IntValue (chunk.MaxDeletes conf)
  | KWriteback => cli.BoolValue (chunk.Writeback conf)
  | KUploadDelay => cli.DurationValue (chunk.UploadDelay conf)
  | KPrefetch => cli.IntValue (chunk.Prefetch conf)
  | KBufferSize => cli.IntValue (chunk.BufferSize conf)
  | KUploadLimit => cli.Int64Value (chunk.UploadLimit conf)
  | KDownloadLimit => cli.Int64Value (chunk.DownloadLimit conf)
  | KCacheDir => cli.StringValue (chunk.CacheDir conf)
  | KCacheSize => cli.Int64Value (chunk.CacheSize conf)
  | KFreeSpace => cli.Float64Value (chunk.FreeSpace conf)
  | KCacheFullBlock => cli.BoolValue (chunk.CacheFullBlock conf)
  | KAutoCreate => cli.BoolValue (chunk.AutoCreate conf)
  end.

(** A knob is consumed from the surrounding process when the value mount
    configures the store with depends on it: two runs of the mount command
    (flags given, format loaded) configure different values. *)
Definition Consumed (SplitDir : string -> list string) (k : Knob) : Prop :=
  exists (g1 g2 : gmap string cli.FlagValue) (f1 f2 : meta.Format),
    knob k (chunkConf (mount SplitDir (linuxMount g1) f1))
    <> knob k (chunkConf (mount SplitDir (linuxMount g2) f2)).

(** A path element that Clean keeps as it is: not empty, not [.] or [..],
    and with no separator in it. *)
Definition properElem (e : string) : Prop :=
  e <> "" /\ e <> "." /\ e <> ".." /\ Strs.Split e filepath.Separator = [e].

(** The path elements of [filepath.Clean path]. *)
Definition cleanedElems (path : string) : list string :=
  filepath.cleanElems (filepath.isRooted path) (Strs.Split path filepath.Separator).

(** [l] is [l1] and [l2] shuffled together, each in its own order. *)
Inductive Interleave {A : Type} : list A -> list A -> list A -> Prop :=
| Interleave_nil : Interleave [] [] []
| Interleave_left x l1 l2 l : Interleave l1 l2 l -> Interleave (x :: l1) l2 (x :: l)
| Interleave_right x l1 l2 l : Interleave l1 l2 l -> Interleave l1 (x :: l2) (x :: l).

(** A run of recognised flags, each followed by its value when isFlag says
    it takes one. *)
Inductive FlagRun (flags : list cli.Flag) : list string -> Prop :=
| FlagRun_nil : FlagRun flags []
| FlagRun_flag o l :
    isFlag flags o = (true, false) -> FlagRun flags l -> FlagRun flags (o :: l)
| FlagRun_value o v l :
    isFlag flags o = (true, true) -> FlagRun flags l -> FlagRun flags (o :: v :: l).

(* ===================================================================== *)
(** ** Machine arithmetic *)
(* ===================================================================== *)

Lemma wrap_inRange z : GoInt.inRange z -> GoInt.wrap z = z.
Proof.
  unfold GoInt.inRange, GoInt.wrap, GoInt.MinInt64, GoInt.MaxInt64. intros H.
  rewrite Z.mod_small; lia.
Qed.

Lemma wrap_is_inRange z : GoInt.inRange (GoInt.wrap z).
Proof.
  unfold GoInt.inRange, GoInt.wrap, GoInt.MinInt64, GoInt.MaxInt64.
  pose proof (Z.mod_pos_bound (z + 2 ^ 63) (2 ^ 64) ltac:(lia)). lia.
Qed.

Lemma wrap_congruent z : (GoInt.wrap z - z) mod 2 ^ 64 = 0.
Proof.
  unfold GoInt.wrap.
  replace ((z + 2 ^ 63) mod 2 ^ 64 - 2 ^ 63 - z)
    with ((z + 2 ^ 63) mod 2 ^ 64 - (z + 2 ^ 63)) by lia.
  rewrite Zminus_mod, Z.mod_mod by lia.
  rewrite Z.sub_diag. reflexivity.
Qed.

Lemma shl_mul a n : 0 <= n -> GoInt.shl a n = GoInt.wrap (a * 2 ^ n).
Proof. intros. unfold GoInt.shl. now rewrite Z.shiftl_mul_pow2. Qed.

Lemma scaled_quot_exact u :
  GoInt.inRange (u * 1000000) ->
  GoInt.quot (GoInt.mul u 1000000) 8 = u * 1000000 / 8
  /\ u * 1000000 / 8 = u * 125000.
Proof.
  intros H. unfold GoInt.quot, GoInt.mul. rewrite (wrap_inRange _ H).
  replace (u * 1000000) with (u * 125000 * 8) by lia.
  rewrite Z.quot_mul, Z.div_mul by lia. split; [|reflexivity].
  apply wrap_inRange.
  unfold GoInt.inRange, GoInt.MinInt64, GoInt.MaxInt64 in *. lia.
Qed.

(* ===================================================================== *)
(** ** getChunkConf and mount, field by field *)
(* ===================================================================== *)

Section ChunkConfFacts.

Variable SplitDir : string -> list string.

Lemma getChunkConf_literal c f :
  getChunkConf SplitDir c f = chunkConfLiteral c f
  \/ exists d, getChunkConf SplitDir c f = chunk.withCacheDir d (chunkConfLiteral c f).
Proof.
  unfold getChunkConf.
  destruct (negb (String.eqb (chunk.CacheDir (chunkConfLiteral c f)) "memory"));
    [right; eexists; reflexivity | left; reflexivity].
Qed.

(** Every field but CacheDir is the literal's. *)
Lemma getChunkConf_fields c f :
  let conf := getChunkConf SplitDir c f in
  let lit := chunkConfLiteral c f in
  chunk.BlockSize conf = chunk.BlockSize lit /\ chunk.Compress conf = chunk.Compress lit
  /\ chunk.GetTimeout conf = chunk.GetTimeout lit /\ chunk.PutTimeout conf = chunk.PutTimeout lit
  /\ chunk.MaxUpload conf = chunk.MaxUpload lit /\ chunk.MaxDeletes conf = chunk.MaxDeletes lit
  /\ chunk.Writeback conf = chunk.Writeback lit /\ chunk.UploadDelay conf = chunk.UploadDelay lit
  /\ chunk.Prefetch conf = chunk.Prefetch lit /\ chunk.BufferSize conf = chunk.BufferSize lit
  /\ chunk.UploadLimit conf = chunk.UploadLimit lit
  /\ chunk.DownloadLimit conf = chunk.DownloadLimit lit
  /\ chunk.CacheSize conf = chunk.CacheSize lit /\ chunk.FreeSpace conf = chunk.FreeSpace lit
  /\ chunk.CacheMode conf = chunk.CacheMode lit
  /\ chunk.CacheFullBlock conf = chunk.CacheFullBlock lit
  /\ chunk.AutoCreate conf = chunk.AutoCreate lit.
Proof.
  intros conf lit. subst conf lit.
  destruct (getChunkConf_literal c f) as [-> | [d ->]]; repeat split; reflexivity.
Qed.

Lemma mount_chunkConf c loaded :
  chunkConf (mount SplitDir c loaded)
  = chunk.withUploadDelay (cli.Duration c "upload-delay")
      (getChunkConf SplitDir c (getFormat c loaded)).
Proof. reflexivity. Qed.

End ChunkConfFacts.

(* ===================================================================== *)
(** ** Claims about the configuration mount builds *)
(* ===================================================================== *)

Lemma value_declared c name f :
  cli.lookupFlag name (cli.flags c) = Some f ->
  cli.value c name = Some (default (cli.Value f) (cli.given c !! cli.Name f)).
Proof. intros H. unfold cli.value. now rewrite H. Qed.

(** C7: for every invocation of the mount command CacheFullBlock is exactly
    the negation of the boolean flag cache-partial-only; with the flag as
    clientFlags declares it, full-block caching is on when the user does not
    give the flag, and CacheFullBlock is false precisely when the user gives
    the flag the value true. *)
Theorem C7_cache_full_block_negates_partial_only
    (SplitDir : string -> list string) (c : cli.Context) (loaded : meta.Format) :
  cli.lookupFlag "cache-partial-only" (cli.flags c)
    = Some (cli.BoolFlag "cache-partial-only" []) ->
  let conf := chunkConf (mount SplitDir c loaded) in
  chunk.CacheFullBlock conf = negb (cli.Bool c "cache-partial-only")
  /\ (cli.given c !! "cache-partial-only" = None -> chunk.CacheFullBlock conf = true)
  /\ (chunk.CacheFullBlock conf = false
      <-> cli.given c !! "cache-partial-only" = Some (cli.BoolValue true)).
Proof.
  intros Hdecl conf.
  assert (Hneg : chunk.CacheFullBlock conf = negb (cli.Bool c "cache-partial-only")).
  { subst conf. rewrite mount_chunkConf. cbn [chunk.withUploadDelay chunk.CacheFullBlock].
    pose proof (getChunkConf_fields SplitDir c (getFormat c loaded)) as F. cbv zeta in F.
    destruct F as (_ & _ & _ & _ & _ & _ & _ & _ & _ & _ & _ & _ & _ & _ & _ & F & _).
    rewrite F. reflexivity. }
  assert (Hval := value_declared c _ _ Hdecl). cbn in Hval.
  split; [exact Hneg|]. rewrite Hneg. unfold cli.Bool. rewrite Hval. split.
  - intros ->. reflexivity.
  - destruct (cli.given c !! "cache-partial-only") as [[[]| | | | |]|]; cbn;
      split; intros H; try discriminate H; try reflexivity.
Qed.

(** C7, at the run [juicefs mount --cache-partial-only ...]. *)
Lemma C7_witness :
  chunk.CacheFullBlock
    (chunkConf (mount (fun d => Strs.Split d ":"%char)
                      (linuxMount {["cache-partial-only" := cli.BoolValue true]})
                      sampleFormat)) = false.
Proof.
  apply (C7_cache_full_block_negates_partial_only (fun d => Strs.Split d ":"%char)
           (linuxMount {["cache-partial-only" := cli.BoolValue true]}) sampleFormat).
  - reflexivity.
  - reflexivity.
Defined.

(** C9: for every invocation of the mount command UploadDelay is the value
    of the upload-delay flag, whatever the mode: when the flag is set
    without writeback, mount logs the warning and the configured UploadDelay
    is still that duration. *)
Theorem C9_upload_delay_copied_unconditionally
    (SplitDir : string -> list string) (c : cli.Context) (loaded : meta.Format) :
  let m := mount SplitDir c loaded in
  chunk.UploadDelay (chunkConf m) = cli.Duration c "upload-delay"
  /\ (logged m = [warnUploadDelay]
      <-> cli.Bool c "writeback" = false /\ cli.IsSet c "upload-delay" = true)
  /\ (forall d,
        cli.lookupFlag "upload-delay" (cli.flags c) = Some (cli.DurationFlag "upload-delay" 0) ->
        cli.given c !! "upload-delay" = Some (cli.DurationValue d) ->
        cli.IsSet c "upload-delay" = true /\ chunk.UploadDelay (chunkConf m) = d).
Proof.
  intros m. subst m. split; [reflexivity|]. split.
  - cbn [logged mount].
    destruct (cli.Bool c "writeback"), (cli.IsSet c "upload-delay"); cbn;
      split; intros H; try discriminate H; try reflexivity; try (split; reflexivity);
      destruct H as [H1 H2]; discriminate.
  - intros d Hdecl Hgiven. split.
    + unfold cli.IsSet. rewrite Hdecl. cbn. rewrite Hgiven.
      apply bool_decide_eq_true_2. eauto.
    + rewrite mount_chunkConf. cbn [chunk.withUploadDelay chunk.UploadDelay].
      unfold cli.Duration. rewrite (value_declared c _ _ Hdecl). cbn.
      rewrite Hgiven. reflexivity.
Qed.

(** C9, at the run [juicefs mount --upload-delay=5s ...] without
    [--writeback]: the warning is logged and UploadDelay is five seconds. *)
Lemma C9_witness :
  let m := mount (fun d => Strs.Split d ":"%char)
                 (linuxMount {["upload-delay" := cli.DurationValue (5 * time.Second)]})
                 sampleFormat in
  chunk.Writeback (chunkConf m) = false
  /\ logged m = [warnUploadDelay]
  /\ chunk.UploadDelay (chunkConf m) = 5000000000.
Proof.
  pose proof (C9_upload_delay_copied_unconditionally (fun d => Strs.Split d ":"%char)
    (linuxMount {["upload-delay" := cli.DurationValue (5 * time.Second)]}) sampleFormat) as H.
  cbv zeta in *. destruct H as (_ & Hlog & Hd).
  split; [reflexivity|]. split.
  - apply Hlog. split; reflexivity.
  - apply (Hd 5000000000); reflexivity.
Defined.

(** C8 as stated fails: the conversions are computed on 64-bit integers, so
    they are not exact for every input.  With [--buffer-size] at 2^44 (MB)
    the shift by 20 leaves BufferSize at 0. *)
Lemma C8_counterexample :
  ~ (forall (SplitDir : string -> list string) (c : cli.Context) (f : meta.Format),
       let conf := getChunkConf SplitDir c f in
       chunk.BlockSize conf = meta.BlockSize f * 1024
       /\ chunk.BufferSize conf = cli.Int c "buffer-size" * 2 ^ 20
       /\ chunk.UploadLimit conf = cli.Int64 c "upload-limit" * 1000000 / 8
       /\ chunk.DownloadLimit conf = cli.Int64 c "download-limit" * 1000000 / 8
       /\ chunk.GetTimeout conf = cli.Int c "get-timeout" * time.Second
       /\ chunk.PutTimeout conf = cli.Int c "put-timeout" * time.Second).
Proof.
  intros H.
  specialize (H (fun d => Strs.Split d ":"%char)
                (linuxMount {["buffer-size" := cli.IntValue 17592186044416]})
                sampleFormat).
  cbv zeta in H. destruct H as (_ & H & _).
  vm_compute in H. discriminate H.
Qed.

(** C8, amended: every conversion is the stated product computed with
    64-bit wrap-around (BlockSize = format.BlockSize * 1024, BufferSize =
    buffer-size * 2^20, UploadLimit and DownloadLimit = limit * 10^6 / 8,
    GetTimeout and PutTimeout = seconds * 10^9 ns), and it is exact whenever
    the product fits the 64-bit signed range. *)
Theorem C8_unit_conversions
    (SplitDir : string -> list string) (c : cli.Context) (f : meta.Format) :
  let conf := getChunkConf SplitDir c f in
  (chunk.BlockSize conf = GoInt.wrap (meta.BlockSize f * 1024)
   /\ chunk.BufferSize conf = GoInt.wrap (cli.Int c "buffer-size" * 2 ^ 20)
   /\ chunk.UploadLimit conf
      = GoInt.wrap (Z.quot (GoInt.wrap (cli.Int64 c "upload-limit" * 1000000)) 8)
   /\ chunk.DownloadLimit conf
      = GoInt.wrap (Z.quot (GoInt.wrap (cli.Int64 c "download-limit" * 1000000)) 8)
   /\ chunk.GetTimeout conf = GoInt.wrap (time.Second * cli.Int c "get-timeout")
   /\ chunk.PutTimeout conf = GoInt.wrap (time.Second * cli.Int c "put-timeout"))
  /\ (GoInt.inRange (meta.BlockSize f * 1024) ->
      chunk.BlockSize conf = meta.BlockSize f * 1024)
  /\ (GoInt.inRange (cli.Int c "buffer-size" * 2 ^ 20) ->
      chunk.BufferSize conf = cli.Int c "buffer-size" * 2 ^ 20)
  /\ (GoInt.inRange (cli.Int64 c "upload-limit" * 1000000) ->
      chunk.UploadLimit conf = cli.Int64 c "upload-limit" * 1000000 / 8)
  /\ (GoInt.inRange (cli.Int64 c "download-limit" * 1000000) ->
      chunk.DownloadLimit conf = cli.Int64 c "download-limit" * 1000000 / 8)
  /\ (GoInt.inRange (cli.Int c "get-timeout" * time.Second) ->
      chunk.GetTimeout conf = cli.Int c "get-timeout" * time.Second)
  /\ (GoInt.inRange (cli.Int c "put-timeout" * time.Second) ->
      chunk.PutTimeout conf = cli.Int c "put-timeout" * time.Second).
Proof.
  intros conf. subst conf.
  pose proof (getChunkConf_fields SplitDir c f) as F. cbv zeta in F.
  destruct F as (F1 & _ & F3 & F4 & _ & _ & _ & _ & _ & F10 & F11 & F12 & _).
  rewrite F1, F3, F4, F10, F11, F12.
  cbn [chunkConfLiteral chunk.BlockSize chunk.BufferSize chunk.UploadLimit
       chunk.DownloadLimit chunk.GetTimeout chunk.PutTimeout].
  rewrite shl_mul by lia.
  split; [repeat split; reflexivity|].
  repeat split; intros H.
  - now apply wrap_inRange.
  - now apply wrap_inRange.
  - now apply scaled_quot_exact.
  - now apply scaled_quot_exact.
  - unfold GoInt.mul. rewrite Z.mul_comm. now apply wrap_inRange.
  - unfold GoInt.mul. rewrite Z.mul_comm. now apply wrap_inRange.
Qed.

(** C8, at the default flags and a format with 4 MiB blocks. *)
Lemma C8_witness :
  let conf := getChunkConf (fun d => Strs.Split d ":"%char) (linuxMount ∅) sampleFormat in
  chunk.BlockSize conf = 4194304
  /\ chunk.BufferSize conf = 314572800
  /\ chunk.GetTimeout conf = 60000000000.
Proof.
  pose proof (C8_unit_conversions (fun d => Strs.Split d ":"%char) (linuxMount ∅) sampleFormat)
    as H.
  cbv zeta in *. destruct H as (_ & Hb & Hbuf & _ & _ & Hg & _).
  split; [|split].
  - rewrite Hb; [reflexivity | vm_compute; split; discriminate].
  - rewrite Hbuf; [reflexivity | vm_compute; split; discriminate].
  - rewrite Hg; [reflexivity | vm_compute; split; discriminate].
Defined.

(** Only the name io-retries resolves to the io-retries flag. *)
Definition onlyByItsName (c : cli.Context) (flagName : string) : Prop :=
  forall name f,
    name <> flagName -> cli.lookupFlag name (cli.flags c) = Some f -> cli.Name f <> flagName.

Lemma value_withGiven_other c flagName v name :
  onlyByItsName c flagName -> name <> flagName ->
  cli.value (withGiven c flagName v) name = cli.value c name.
Proof.
  intros Honly Hne. unfold cli.value, withGiven. cbn [cli.flags cli.given].
  destruct (cli.lookupFlag name (cli.flags c)) as [f|] eqn:E; [|reflexivity].
  rewrite lookup_insert_ne; [reflexivity|].
  intros Heq. exact (Honly name f Hne E (eq_sym Heq)).
Qed.

Lemma IsSet_withGiven_other c flagName v name :
  onlyByItsName c flagName -> name <> flagName ->
  cli.IsSet (withGiven c flagName v) name = cli.IsSet c name.
Proof.
  intros Honly Hne. unfold cli.IsSet, withGiven. cbn [cli.flags cli.given].
  destruct (cli.lookupFlag name (cli.flags c)) as [f|] eqn:E; [|reflexivity].
  rewrite lookup_insert_ne; [reflexivity|].
  intros Heq. exact (Honly name f Hne E (eq_sym Heq)).
Qed.

Ltac other_flag Honly :=
  repeat first
    [ rewrite (value_withGiven_other _ _ _ _ Honly) by discriminate
    | rewrite (IsSet_withGiven_other _ _ _ _ Honly) by discriminate ].

(** C5 (the code does not do it): the value given for io-retries reaches
    neither the chunk configuration nor the metadata configuration that
    mount builds: both are the same whatever the flag is set to. *)
Theorem C5_io_retries_not_consumed
    (SplitDir : string -> list string) (c : cli.Context) (loaded : meta.Format) (v : cli.FlagValue) :
  onlyByItsName c "io-retries" ->
  chunkConf (mount SplitDir (withGiven c "io-retries" v) loaded)
    = chunkConf (mount SplitDir c loaded)
  /\ metaConf (mount SplitDir (withGiven c "io-retries" v) loaded)
    = metaConf (mount SplitDir c loaded).
Proof.
  intros Honly.
  unfold mount, getChunkConf, chunkConfLiteral, getMetaConf, getFormat,
    cli.Bool, cli.Int, cli.Int64, cli.String, cli.Duration, cli.Float64.
  cbn [chunkConf metaConf cli.args withGiven].
  other_flag Honly. split; reflexivity.
Qed.

Lemma linuxMount_onlyByItsName g : onlyByItsName (linuxMount g) "io-retries".
Proof.
  intros name f Hne Hfind Hname.
  apply find_some in Hfind. destruct Hfind as [Hin Hhas].
  cbn in Hin.
  repeat (destruct Hin as [<- | Hin]; [try discriminate Hname|]); try contradiction.
  cbn in Hhas. rewrite orb_false_r in Hhas.
  apply String.eqb_eq in Hhas. contradiction.
Qed.

(** C5, at the run [juicefs mount --io-retries=5 ...]: the store is
    configured exactly as with the default of 30. *)
Lemma C5_witness :
  cli.Int (linuxMount {["io-retries" := cli.IntValue 5]}) "io-retries" = 5
  /\ cli.Int (linuxMount ∅) "io-retries" = 30
  /\ chunkConf (mount (fun d => Strs.Split d ":"%char)
                      (linuxMount {["io-retries" := cli.IntValue 5]}) sampleFormat)
     = chunkConf (mount (fun d => Strs.Split d ":"%char) (linuxMount ∅) sampleFormat).
Proof.
  split; [reflexivity|]. split; [reflexivity|].
  apply (C5_io_retries_not_consumed (fun d => Strs.Split d ":"%char)
           (linuxMount ∅) sampleFormat (cli.IntValue 5)).
  apply linuxMount_onlyByItsName.
Defined.

(* ===================================================================== *)
(** ** Paths: what Join does to a directory and a proper element *)
(* ===================================================================== *)

Lemma Split_nonempty s sep : Strs.Split s sep <> [].
Proof.
  destruct s as [|c s]; cbn; [discriminate|].
  destruct (Ascii.eqb c sep); [discriminate|].
  destruct (Strs.Split s sep); discriminate.
Qed.

Lemma append_nil_l s : ("" ++ s)%string = s.
Proof. reflexivity. Qed.
Lemma append_cons c a s : (String c a ++ s)%string = String c (a ++ s).
Proof. reflexivity. Qed.
Lemma Split_cons c s sep :
  Strs.Split (String c s) sep
  = if Ascii.eqb c sep then "" :: Strs.Split s sep
    else match Strs.Split s sep with
         | hd :: tl => String c hd :: tl
         | [] => [String c ""]
         end.
Proof. reflexivity. Qed.

Lemma Split_app_sep a b sep :
  Strs.Split (a ++ String sep b)%string sep = (Strs.Split a sep ++ Strs.Split b sep)%list.
Proof.
  induction a as [|c a IH].
  - rewrite append_nil_l, Split_cons, Ascii.eqb_refl. reflexivity.
  - rewrite append_cons, !Split_cons, IH.
    destruct (Ascii.eqb c sep); [reflexivity|].
    pose proof (Split_nonempty a sep) as Hne.
    destruct (Strs.Split a sep); [contradiction|reflexivity].
Qed.

Lemma cleanStep_proper rooted out e :
  properElem e -> filepath.cleanStep rooted out e = e :: out.
Proof.
  intros (H1 & H2 & H3 & _). unfold filepath.cleanStep.
  destruct (String.eqb_spec e ""); [contradiction|].
  destruct (String.eqb_spec e "."); [contradiction|].
  destruct (String.eqb_spec e ".."); [contradiction|]. reflexivity.
Qed.

Lemma cleanElems_snoc rooted elems e :
  properElem e ->
  filepath.cleanElems rooted (elems ++ [e]) = (filepath.cleanElems rooted elems ++ [e])%list.
Proof.
  intros He. unfold filepath.cleanElems.
  rewrite fold_left_app. cbn [fold_left].
  rewrite (cleanStep_proper _ _ _ He). reflexivity.
Qed.

Lemma append_assoc a b c : ((a ++ b) ++ c)%string = (a ++ (b ++ c))%string.
Proof.
  induction a as [|x a IH]; [reflexivity|].
  rewrite !append_cons, IH. reflexivity.
Qed.

Lemma concat_cons2 sep x y l :
  String.concat sep (x :: y :: l) = (x ++ sep ++ String.concat sep (y :: l))%string.
Proof. reflexivity. Qed.

Lemma concat_snoc sep l e :
  String.concat sep (l ++ [e])
  = ((match l with [] => "" | _ => String.concat sep l ++ sep end) ++ e)%string.
Proof.
  induction l as [|x l IH]; [reflexivity|].
  destruct l as [|y l].
  - change (String.concat sep ([x] ++ [e])) with (x ++ sep ++ e)%string.
    change (String.concat sep [x]) with x.
    now rewrite append_assoc.
  - change (((x :: y :: l) ++ [e])%list) with (x :: y :: (l ++ [e]))%list.
    rewrite concat_cons2.
    change (y :: (l ++ [e]))%list with ((y :: l) ++ [e])%list.
    rewrite IH, concat_cons2.
    rewrite !append_assoc. reflexivity.
Qed.

Lemma render_snoc rooted elems e :
  exists dir, filepath.render rooted (elems ++ [e]) = (dir ++ e)%string
              /\ (dir = "" \/ exists parent, dir = (parent ++ "/")%string).
Proof.
  unfold filepath.render, Strs.Join. rewrite concat_snoc.
  destruct rooted.
  - destruct elems as [|x l].
    + exists "/". split; [reflexivity|]. right. exists "". reflexivity.
    + exists (String filepath.Separator (String.concat "/" (x :: l) ++ "/")). split; [reflexivity|].
      right. exists (String filepath.Separator (String.concat "/" (x :: l))). reflexivity.
  - destruct elems as [|x l].
    + exists "". split; [reflexivity|]. now left.
    + change ((x :: l) ++ [e])%list with (x :: (l ++ [e]))%list. cbv iota beta.
      exists (String.concat "/" (x :: l) ++ "/")%string.
      split; [reflexivity|]. right. eexists. reflexivity.
Qed.

Lemma isRooted_app d rest : d <> "" -> filepath.isRooted (d ++ rest) = filepath.isRooted d.
Proof.
  destruct d as [|c d]; [contradiction|]. intros _.
  unfold filepath.isRooted, Strs.HasPrefix. rewrite append_cons.
  cbn [String.prefix].
  destruct (Ascii.ascii_dec "/" c) as [e|e]; [|reflexivity].
  now destruct (d ++ rest)%string, d.
Qed.

(** Join of a directory and a proper element: the cleaned elements of the
    directory, then the element. *)
Lemma Join_dir_elem d e :
  properElem e ->
  filepath.Join [d; e]
  = filepath.render (filepath.isRooted d) (cleanedElems d ++ [e]).
Proof.
  intros He. pose proof He as (Hne & _ & _ & Hsplit).
  unfold cleanedElems. cbn [filepath.Join].
  destruct (String.eqb_spec d "") as [-> | Hd].
  - destruct (String.eqb_spec e ""); [contradiction|].
    unfold filepath.Clean, Strs.Join. cbn [String.concat].
    destruct (String.eqb_spec e ""); [contradiction|].
    assert (Hr : filepath.isRooted e = false).
    { unfold filepath.isRooted, Strs.HasPrefix. destruct e as [|c e]; [reflexivity|].
      cbn [String.prefix]. destruct (Ascii.ascii_dec "/" c) as [<-|]; [|reflexivity].
      rewrite Split_cons in Hsplit. cbn in Hsplit. discriminate Hsplit. }
    rewrite Hr, Hsplit.
    change (filepath.isRooted "") with false.
    change (Strs.Split "" filepath.Separator) with [""].
    change (filepath.cleanElems false [""]) with (@nil string).
    change (filepath.cleanElems false [e]) with (rev (filepath.cleanStep false [] e)).
    rewrite (cleanStep_proper _ _ _ He). reflexivity.
  - unfold filepath.Clean, Strs.Join.
    change (String.concat "/" [d; e]) with (d ++ String filepath.Separator e)%string.
    assert (Hne' : (d ++ String filepath.Separator e)%string <> "").
    { destruct d; [contradiction|]. rewrite append_cons. discriminate. }
    destruct (String.eqb_spec (d ++ String filepath.Separator e) ""); [contradiction|].
    rewrite (isRooted_app d _ Hd).
    rewrite Split_app_sep, Hsplit.
    rewrite (cleanElems_snoc _ _ _ He). reflexivity.
Qed.

(** C6: when the UUID of the volume is a proper path element, for every
    value of cache-dir other than "memory" the configured CacheDir is the
    directories of the user's list, in the same number and order, each with
    the UUID appended as its last path element, joined with the path-list
    separator; the value "memory" is passed through unchanged. *)
Theorem C6_cache_dir_lists_volume_directories
    (SplitDir : string -> list string) (c : cli.Context) (f : meta.Format) :
  properElem (meta.UUID f) ->
  let v := cli.String c "cache-dir" in
  let conf := getChunkConf SplitDir c f in
  (v = "memory" -> chunk.CacheDir conf = "memory")
  /\ (v <> "memory" ->
      exists entries : list string,
        chunk.CacheDir conf = Strs.Join entries (String filepath.PathListSeparator "")
        /\ length entries = length (SplitDir v)
        /\ forall (i : nat) (d : string),
             SplitDir v !! i = Some d ->
             entries !! i = Some (filepath.Join [d; meta.UUID f])
             /\ filepath.Join [d; meta.UUID f]
                = filepath.render (filepath.isRooted d) (cleanedElems d ++ [meta.UUID f])
             /\ exists dir, filepath.Join [d; meta.UUID f] = (dir ++ meta.UUID f)%string
                            /\ (dir = "" \/ exists parent, dir = (parent ++ "/")%string)).
Proof.
  intros Hu v conf. subst v conf. unfold getChunkConf.
  cbn [chunkConfLiteral chunk.CacheDir].
  destruct (String.eqb_spec (cli.String c "cache-dir") "memory") as [Heq | Hne]; cbn [negb].
  - split; [intros _; exact Heq | intros H; contradiction].
  - split; [intros H; contradiction|]. intros _.
    exists (map (fun d => filepath.Join [d; meta.UUID f]) (SplitDir (cli.String c "cache-dir"))).
    split; [reflexivity|]. split; [apply length_map|].
    intros i d Hi. split.
    + rewrite list_lookup_fmap, Hi. reflexivity.
    + split; [apply Join_dir_elem, Hu|].
      rewrite (Join_dir_elem d _ Hu). apply render_snoc.
Qed.

Lemma sampleFormat_UUID_proper : properElem (meta.UUID sampleFormat).
Proof. repeat split; discriminate. Qed.

(** C6, at [--cache-dir=/data/cache:/ssd//jfs/] on the sample volume. *)
Lemma C6_witness :
  chunk.CacheDir
    (getChunkConf (fun d => Strs.Split d ":"%char)
       (linuxMount {["cache-dir" := cli.StringValue "/data/cache:/ssd//jfs/"]}) sampleFormat)
  = "/data/cache/0d6a3ed1-7e2c-4b7f-9c58-6c3f1f0e2a11:/ssd/jfs/0d6a3ed1-7e2c-4b7f-9c58-6c3f1f0e2a11".
Proof.
  pose proof (C6_cache_dir_lists_volume_directories (fun d => Strs.Split d ":"%char)
    (linuxMount {["cache-dir" := cli.StringValue "/data/cache:/ssd//jfs/"]}) sampleFormat
    sampleFormat_UUID_proper) as H.
  cbv zeta in H. destruct H as [_ H].
  destruct H as (entries & -> & Hlen & Hent); [discriminate|].
  destruct entries as [|e0 [|e1 [|e2 entries]]]; try discriminate Hlen.
  destruct (Hent 0%nat "/data/cache" eq_refl) as [H0 _].
  destruct (Hent 1%nat "/ssd//jfs/" eq_refl) as [H1 _].
  vm_compute in H0, H1. injection H0 as ->. injection H1 as ->. reflexivity.
Defined.

(* ===================================================================== *)
(** ** The configuration surface *)
(* ===================================================================== *)

Lemma length_append a b : String.length (a ++ b) = (String.length a + String.length b)%nat.
Proof.
  induction a as [|x a IH]; [reflexivity|].
  rewrite append_cons. cbn [String.length]. now rewrite IH.
Qed.

(** A path list whose entries end with a long element is not "memory". *)
Lemma joined_entries_not_memory (SplitDir : string -> list string) (v u : string) :
  properElem u -> (6 < String.length u)%nat ->
  Strs.Join (map (fun d => filepath.Join [d; u]) (SplitDir v))
            (String filepath.PathListSeparator "") <> "memory".
Proof.
  intros Hu Hlen. unfold Strs.Join.
  destruct (SplitDir v) as [|d ds] using rev_ind; [discriminate|].
  rewrite map_app. cbn [map]. rewrite concat_snoc.
  rewrite (Join_dir_elem _ _ Hu).
  destruct (render_snoc (filepath.isRooted d) (cleanedElems d) u) as (dir & -> & _).
  intros H. apply (f_equal String.length) in H.
  rewrite !length_append in H. cbn [String.length] in H. lia.
Qed.

Definition formatWith (blockSize : Z) (compression : string) : meta.Format :=
  meta.mkFormat "myjfs" "0d6a3ed1-7e2c-4b7f-9c58-6c3f1f0e2a11" blockSize compression "".

Ltac consumed_by_flag name val :=
  exists (∅ : gmap string cli.FlagValue), ({[name := val]} : gmap string cli.FlagValue),
         sampleFormat, sampleFormat;
  vm_compute; discriminate.

Section Surface.

Variable SplitDir : string -> list string.

Lemma AutoCreate_constant c loaded :
  chunk.AutoCreate (chunkConf (mount SplitDir c loaded)) = true.
Proof.
  rewrite mount_chunkConf. cbn [chunk.withUploadDelay chunk.AutoCreate].
  pose proof (getChunkConf_fields SplitDir c (getFormat c loaded)) as F. cbv zeta in F.
  destruct F as (_ & _ & _ & _ & _ & _ & _ & _ & _ & _ & _ & _ & _ & _ & _ & _ & F).
  rewrite F. reflexivity.
Qed.

Lemma MaxDeletes_constant c loaded :
  chunk.MaxDeletes (chunkConf (mount SplitDir c loaded)) = 0.
Proof.
  rewrite mount_chunkConf. cbn [chunk.withUploadDelay chunk.MaxDeletes].
  pose proof (getChunkConf_fields SplitDir c (getFormat c loaded)) as F. cbv zeta in F.
  destruct F as (_ & _ & _ & _ & _ & F & _).
  rewrite F. reflexivity.
Qed.

Lemma consumed_CacheDir : Consumed SplitDir KCacheDir.
Proof.
  exists ({["cache-dir" := cli.StringValue "memory"]} : gmap string cli.FlagValue),
         (∅ : gmap string cli.FlagValue), sampleFormat, sampleFormat.
  rewrite !mount_chunkConf. cbn [knob chunk.withUploadDelay chunk.CacheDir].
  unfold getChunkConf.
  change (chunk.CacheDir (chunkConfLiteral
            (linuxMount {["cache-dir" := cli.StringValue "memory"]})
            (getFormat (linuxMount {["cache-dir" := cli.StringValue "memory"]}) sampleFormat)))
    with "memory".
  change (chunk.CacheDir (chunkConfLiteral (linuxMount ∅) (getFormat (linuxMount ∅) sampleFormat)))
    with "/var/jfsCache".
  cbn [String.eqb negb chunk.withCacheDir chunk.CacheDir chunkConfLiteral].
  intros H. injection H as H. symmetry in H. revert H.
  apply joined_entries_not_memory; [apply sampleFormat_UUID_proper | vm_compute; lia].
Qed.

Lemma consumed_knobs :
  Forall (Consumed SplitDir)
    [KBlockSize; KCompress; KGetTimeout; KPutTimeout; KMaxUpload; KWriteback;
     KUploadDelay; KPrefetch; KBufferSize; KUploadLimit; KDownloadLimit; KCacheDir;
     KCacheSize; KFreeSpace; KCacheFullBlock].
Proof.
  repeat (apply List.Forall_cons); [..|apply List.Forall_nil].
  - exists (∅ : gmap string cli.FlagValue), (∅ : gmap string cli.FlagValue),
      (formatWith 4096 "none"), (formatWith 1024 "none").
    vm_compute; discriminate.
  - exists (∅ : gmap string cli.FlagValue), (∅ : gmap string cli.FlagValue),
      (formatWith 4096 "none"), (formatWith 4096 "lz4").
    vm_compute; discriminate.
  - consumed_by_flag "get-timeout" (cli.IntValue 5).
  - consumed_by_flag "put-timeout" (cli.IntValue 5).
  - consumed_by_flag "max-uploads" (cli.IntValue 5).
  - consumed_by_flag "writeback" (cli.BoolValue true).
  - consumed_by_flag "upload-delay" (cli.DurationValue 5000000000).
  - consumed_by_flag "prefetch" (cli.IntValue 3).
  - consumed_by_flag "buffer-size" (cli.IntValue 1024).
  - consumed_by_flag "upload-limit" (cli.Int64Value 100).
  - consumed_by_flag "download-limit" (cli.Int64Value 100).
  - apply consumed_CacheDir.
  - consumed_by_flag "cache-size" (cli.IntValue 1024).
  - consumed_by_flag "free-space-ratio" (cli.Float64Value (S754_finite false 4503599627370496 (-53))).
  - consumed_by_flag "cache-partial-only" (cli.BoolValue true).
Qed.

End Surface.

(** C2 as stated fails: two knobs of the enumerated set are not consumed
    from the surrounding process into the chunk configuration.  Whatever the
    flags and the format, AutoCreate is true and the chunk configuration's
    MaxDeletes keeps its zero value. *)
Lemma C2_counterexample :
  ~ (forall k : Knob, Consumed (fun d => Strs.Split d ":"%char) k).
Proof.
  intros H. destruct (H KAutoCreate) as (g1 & g2 & f1 & f2 & Hne).
  apply Hne. cbn [knob]. now rewrite !AutoCreate_constant.
Qed.

(** C2, amended: every knob of the enumerated set other than MaxDeletes and
    AutoCreate is consumed from the command-line flags or the volume format
    into the chunk configuration the cached store is constructed with, each
    from the source listed here; AutoCreate is always true, and max-deletes
    is consumed into the metadata engine's configuration, the chunk
    configuration's MaxDeletes staying at zero. *)
Theorem C2_configuration_surface (SplitDir : string -> list string) :
  Forall (Consumed SplitDir)
    [KBlockSize; KCompress; KGetTimeout; KPutTimeout; KMaxUpload; KWriteback;
     KUploadDelay; KPrefetch; KBufferSize; KUploadLimit; KDownloadLimit; KCacheDir;
     KCacheSize; KFreeSpace; KCacheFullBlock]
  /\ ~ Consumed SplitDir KMaxDeletes
  /\ ~ Consumed SplitDir KAutoCreate
  /\ forall (c : cli.Context) (loaded : meta.Format),
       let m := mount SplitDir c loaded in
       let conf := chunkConf m in
       chunk.BlockSize conf = GoInt.mul (meta.BlockSize loaded) 1024
       /\ chunk.Compress conf = meta.Compression loaded
       /\ chunk.GetTimeout conf = GoInt.mul time.Second (cli.Int c "get-timeout")
       /\ chunk.PutTimeout conf = GoInt.mul time.Second (cli.Int c "put-timeout")
       /\ chunk.MaxUpload conf = cli.Int c "max-uploads"
       /\ chunk.Writeback conf = cli.Bool c "writeback"
       /\ chunk.UploadDelay conf = cli.Duration c "upload-delay"
       /\ chunk.Prefetch conf = cli.Int c "prefetch"
       /\ chunk.BufferSize conf = GoInt.shl (cli.Int c "buffer-size") 20
       /\ chunk.UploadLimit conf
          = GoInt.quot (GoInt.mul (cli.Int64 c "upload-limit") 1000000) 8
       /\ chunk.DownloadLimit conf
          = GoInt.quot (GoInt.mul (cli.Int64 c "download-limit") 1000000) 8
       /\ chunk.CacheDir conf
          = (if String.eqb (cli.String c "cache-dir") "memory" then "memory"
             else Strs.Join (map (fun d => filepath.Join [d; meta.UUID loaded])
                                 (SplitDir (cli.String c "cache-dir")))
                            (String filepath.PathListSeparator ""))
       /\ chunk.CacheSize conf = cli.Int c "cache-size"
       /\ chunk.FreeSpace conf = GoFloat.toFloat32 (cli.Float64 c "free-space-ratio")
       /\ chunk.CacheFullBlock conf = negb (cli.Bool c "cache-partial-only")
       /\ chunk.AutoCreate conf = true
       /\ chunk.MaxDeletes conf = 0
       /\ meta.MaxDeletes (metaConf m) = cli.Int c "max-deletes".
Proof.
  split; [apply consumed_knobs|]. split; [|split].
  - intros (g1 & g2 & f1 & f2 & Hne). apply Hne. cbn [knob].
    now rewrite !MaxDeletes_constant.
  - intros (g1 & g2 & f1 & f2 & Hne). apply Hne. cbn [knob].
    now rewrite !AutoCreate_constant.
  - intros c loaded m conf. subst conf m. rewrite mount_chunkConf.
    assert (Hfmt : meta.BlockSize (getFormat c loaded) = meta.BlockSize loaded
                   /\ meta.Compression (getFormat c loaded) = meta.Compression loaded
                   /\ meta.UUID (getFormat c loaded) = meta.UUID loaded).
    { unfold getFormat. destruct (cli.IsSet c "bucket"); repeat split; reflexivity. }
    destruct Hfmt as (Hb & Hc & Hu).
    unfold getChunkConf. cbn [chunkConfLiteral chunk.CacheDir].
    rewrite Hu.
    destruct (String.eqb_spec (cli.String c "cache-dir") "memory") as [Hmem|Hmem];
      cbn [negb chunk.withUploadDelay chunk.withCacheDir chunkConfLiteral
           chunk.BlockSize chunk.Compress chunk.GetTimeout chunk.PutTimeout
           chunk.MaxUpload chunk.MaxDeletes chunk.Writeback chunk.UploadDelay
           chunk.Prefetch chunk.BufferSize chunk.UploadLimit chunk.DownloadLimit
           chunk.CacheDir chunk.CacheSize chunk.FreeSpace chunk.CacheFullBlock
           chunk.AutoCreate];
      rewrite Hb, Hc; repeat split; try reflexivity; exact Hmem.
Qed.

(** C2, at the run [juicefs mount --max-deletes=7 --max-uploads=9 ...]:
    max-uploads reaches the chunk configuration, max-deletes the metadata
    configuration only. *)
Lemma C2_witness :
  let m := mount (fun d => Strs.Split d ":"%char)
                 (linuxMount {["max-deletes" := cli.IntValue 7;
                               "max-uploads" := cli.IntValue 9]}) sampleFormat in
  chunk.MaxUpload (chunkConf m) = 9
  /\ chunk.MaxDeletes (chunkConf m) = 0
  /\ meta.MaxDeletes (metaConf m) = 7
  /\ chunk.AutoCreate (chunkConf m) = true.
Proof.
  pose proof (C2_configuration_surface (fun d => Strs.Split d ":"%char)) as (_ & _ & _ & H).
  specialize (H (linuxMount {["max-deletes" := cli.IntValue 7;
                              "max-uploads" := cli.IntValue 9]}) sampleFormat).
  cbv zeta in *.
  destruct H as (_ & _ & _ & _ & Hu & _ & _ & _ & _ & _ & _ & _ & _ & _ & _ & Ha & Hd & Hm).
  rewrite Hu, Ha, Hd, Hm. repeat split; reflexivity.
Defined.

(* ===================================================================== *)
(** ** The handlers of the metadata engine's messages *)
(* ===================================================================== *)

Lemma toInt_uint32 v : GoInt.isUint32 v -> GoInt.toInt v = v.
Proof.
  intros H. apply wrap_inRange.
  unfold GoInt.isUint32, GoInt.inRange, GoInt.MinInt64, GoInt.MaxInt64 in *. lia.
Qed.

Section Handlers.

Context {Slice StoreState : Type}.
Variable Compact :
  chunk.Config -> ChunkStore StoreState -> list Slice -> Z -> StoreState -> error * StoreState.

Lemma registered_DeleteChunk m store :
  registerMetaMsg Compact m store !! meta.DeleteChunk = Some (onDeleteChunk Slice StoreState store).
Proof.
  unfold registerMetaMsg, OnMsg.
  rewrite lookup_insert_ne by discriminate. apply lookup_insert_eq.
Qed.

Lemma registered_CompactChunk m store :
  registerMetaMsg Compact m store !! meta.CompactChunk
  = Some (onCompactChunk Slice StoreState Compact store).
Proof. unfold registerMetaMsg, OnMsg. apply lookup_insert_eq. Qed.

(** C1: a DeleteChunk message with arguments (chunkID uint64, blockSize
    uint32) makes the registered handler call the store's Remove with that
    chunk id and that block size, and the handler returns Remove's error; a
    CompactChunk message with arguments (slices, chunkID uint64) makes the
    registered handler call Compact with the chunk configuration, the store,
    those slices and that chunk id, and the handler returns its error. *)
Theorem C1_handlers_forward_and_report
    (m : gmap meta.MsgType (MsgCallback Slice StoreState)) (store : ChunkStore StoreState)
    (chunkID blockSize : Z) (slices : list Slice) (w : World StoreState) :
  GoInt.isUint64 chunkID -> GoInt.isUint32 blockSize ->
  let m' := registerMetaMsg Compact m store in
  let removed := Remove store chunkID blockSize (storeState w) in
  let compacted := Compact (chunkConfCell w) store slices chunkID (storeState w) in
  deliver m' meta.DeleteChunk [AnyUint64 chunkID; AnyUint32 blockSize] w
    = Some (Returned (removed.1, mkWorld (chunkConfCell w) removed.2))
  /\ deliver m' meta.CompactChunk [AnySlices slices; AnyUint64 chunkID] w
    = Some (Returned (compacted.1, mkWorld (chunkConfCell w) compacted.2)).
Proof.
  intros Hid Hsize m' removed compacted. subst m' removed compacted.
  unfold deliver. rewrite registered_DeleteChunk, registered_CompactChunk. split.
  - unfold onDeleteChunk. cbn. rewrite (toInt_uint32 _ Hsize). reflexivity.
  - unfold onCompactChunk. cbn. reflexivity.
Qed.

End Handlers.

(** A store that records the calls of Remove and refuses the size 0, and a
    compactor that always fails. *)
Definition recordingStore : ChunkStore (list (Z * Z)) :=
  mkChunkStore (fun chunkid length calls =>
                  (if length =? 0 then Some "empty" else None, (chunkid, length) :: calls)).

Definition failingCompact (conf : chunk.Config) (store : ChunkStore (list (Z * Z)))
    (slices : list nat) (chunkid : Z) (calls : list (Z * Z)) : error * list (Z * Z) :=
  (Some "compaction failed", calls).

(** C1, at the messages DeleteChunk(7, 0) and CompactChunk([1; 2], 7): the
    errors of Remove and of Compact come back from the handlers. *)
Lemma C1_witness :
  let conf := getChunkConf (fun d => Strs.Split d ":"%char) (linuxMount ∅) sampleFormat in
  let m := registerMetaMsg failingCompact ∅ recordingStore in
  deliver m meta.DeleteChunk [AnyUint64 7; AnyUint32 0] (mkWorld conf [])
    = Some (Returned (Some "empty", mkWorld conf [(7, 0)]))
  /\ deliver m meta.CompactChunk [AnySlices [1%nat; 2%nat]; AnyUint64 7] (mkWorld conf [])
    = Some (Returned (Some "compaction failed", mkWorld conf [])).
Proof.
  intros conf m.
  apply (C1_handlers_forward_and_report failingCompact ∅ recordingStore 7 0
           [1%nat; 2%nat] (mkWorld conf [])).
  - unfold GoInt.isUint64. lia.
  - unfold GoInt.isUint32. lia.
Defined.

(* ===================================================================== *)
(** ** reorderOptions *)
(* ===================================================================== *)

Lemma Interleave_Permutation {A} (l1 l2 l : list A) :
  Interleave l1 l2 l -> Permutation l (l1 ++ l2).
Proof.
  induction 1 as [|x l1 l2 l _ IH|x l1 l2 l _ IH].
  - constructor.
  - cbn. now constructor.
  - rewrite IH. apply Permutation_middle.
Qed.

(** What the first loop returns: the recognised flags (with their values)
    after [newArgs], everything else after [others], nothing lost and
    nothing reordered within either. *)
Lemma scanGlobal_returns flags :
  forall (n : nat) (args newArgs others newArgs' others' : list string),
    (length args <= n)%nat ->
    scanGlobal flags args newArgs others = Returned (newArgs', others') ->
    exists G O,
      newArgs' = (newArgs ++ G)%list /\ others' = (others ++ O)%list
      /\ Interleave G O args /\ FlagRun flags G
      /\ Forall (fun o => (isFlag flags o).1 = false) O.
Proof.
  induction n as [|n IH]; intros args newArgs others newArgs' others' Hlen Hret.
  - destruct args; [|cbn in Hlen; lia]. cbn in Hret. injection Hret as <- <-.
    exists [], []. rewrite !app_nil_r. repeat split; constructor.
  - destruct args as [|o rest].
    { cbn in Hret. injection Hret as <- <-.
      exists [], []. rewrite !app_nil_r. repeat split; constructor. }
    cbn [scanGlobal] in Hret. cbn in Hlen.
    destruct (isFlag flags o) as [ok hasValue] eqn:Eo.
    destruct ok; [destruct hasValue|].
    + destruct rest as [|v rest']; [discriminate Hret|]. cbn in Hlen.
      apply IH in Hret; [|lia].
      destruct Hret as (G & O & -> & -> & Hi & Hg & Ho).
      exists (o :: v :: G), O. rewrite <- !app_assoc. cbn.
      repeat split; try assumption.
      * now do 2 apply Interleave_left.
      * now apply FlagRun_value.
    + apply IH in Hret; [|lia].
      destruct Hret as (G & O & -> & -> & Hi & Hg & Ho).
      exists (o :: G), O. rewrite <- !app_assoc. cbn.
      repeat split; try assumption.
      * now apply Interleave_left.
      * now apply FlagRun_flag.
    + apply IH in Hret; [|lia].
      destruct Hret as (G & O & -> & -> & Hi & Hg & Ho).
      exists G, (o :: O). rewrite <- !app_assoc. cbn.
      repeat split; try assumption.
      * now apply Interleave_right.
      * constructor; [now rewrite Eo | assumption].
Qed.

(** An argument the second loop lets through to the positional ones. *)
Definition passesAsPositional (cmdFlags : list cli.Flag) (all : list string) (o : string) : Prop :=
  (isFlag cmdFlags o).1 = false
  /\ (Strs.HasPrefix o "-" = true -> stringContains all "--generate-bash-completion" = true).

Lemma scanCommand_returns flags all :
  forall (n : nat) (args newArgs others newArgs' others' : list string),
    (length args <= n)%nat ->
    scanCommand flags all args newArgs others = Returned (newArgs', others') ->
    exists F P,
      newArgs' = (newArgs ++ F)%list /\ others' = (others ++ P)%list
      /\ Interleave F P args /\ FlagRun flags F
      /\ Forall (passesAsPositional flags all) P.
Proof.
  induction n as [|n IH]; intros args newArgs others newArgs' others' Hlen Hret.
  - destruct args; [|cbn in Hlen; lia]. cbn in Hret. injection Hret as <- <-.
    exists [], []. rewrite !app_nil_r. repeat split; constructor.
  - destruct args as [|o rest].
    { cbn in Hret. injection Hret as <- <-.
      exists [], []. rewrite !app_nil_r. repeat split; constructor. }
    cbn [scanCommand] in Hret. cbn in Hlen.
    destruct (isFlag flags o) as [ok hasValue] eqn:Eo.
    destruct ok; [destruct hasValue|].
    + destruct rest as [|v rest']; [discriminate Hret|]. cbn in Hlen.
      apply IH in Hret; [|lia].
      destruct Hret as (F & P & -> & -> & Hi & Hg & Ho).
      exists (o :: v :: F), P. rewrite <- !app_assoc. cbn.
      repeat split; try assumption.
      * now do 2 apply Interleave_left.
      * now apply FlagRun_value.
    + apply IH in Hret; [|lia].
      destruct Hret as (F & P & -> & -> & Hi & Hg & Ho).
      exists (o :: F), P. rewrite <- !app_assoc. cbn.
      repeat split; try assumption.
      * now apply Interleave_left.
      * now apply FlagRun_flag.
    + destruct (Strs.HasPrefix o "-" && negb (stringContains all "--generate-bash-completion"))
        eqn:Edash; [discriminate Hret|].
      apply IH in Hret; [|lia].
      destruct Hret as (F & P & -> & -> & Hi & Hg & Ho).
      exists F, (o :: P). rewrite <- !app_assoc. cbn.
      repeat split; try assumption.
      * now apply Interleave_right.
      * constructor; [|assumption]. split; [now rewrite Eo|].
        intros Hd. rewrite Hd in Edash. cbn in Edash.
        now apply negb_false_iff in Edash.
Qed.

(** C10: whenever reorderOptions returns, what it returns is a permutation
    of the arguments: the program name first, then the recognised global
    flags with their values, in their order; with no other argument that is
    all; otherwise the first other argument is taken as the command name,
    and either no command has that name and the other arguments follow
    unchanged in their order, or the command name follows, then the
    recognised flags of the command with their values, then the remaining
    arguments, each group in its original order. *)
Theorem C10_reorderOptions_permutes
    (app : cli.App) (args res : list string) :
  reorderOptions app args = Returned res ->
  Permutation args res
  /\ exists (arg0 : string) (rest G others : list string),
       args = arg0 :: rest
       /\ Interleave G others rest
       /\ FlagRun (cli.appFlags app ++ [cli.VersionFlag]) G
       /\ Forall (fun o => (isFlag (cli.appFlags app ++ [cli.VersionFlag]) o).1 = false) others
       /\ match others with
          | [] => res = arg0 :: G
          | cmdName :: args' =>
              match findCommand (cli.appCommands app) cmdName with
              | None => res = (arg0 :: G ++ others)%list
              | Some cmd =>
                  exists F P : list string,
                    Interleave F P args'
                    /\ FlagRun (cli.cmdFlags cmd ++ [cli.HelpFlag]) F
                    /\ Forall (passesAsPositional (cli.cmdFlags cmd ++ [cli.HelpFlag]) args') P
                    /\ res = (arg0 :: G ++ cmdName :: F ++ P)%list
              end
          end.
Proof.
  intros Hret. unfold reorderOptions in Hret.
  destruct args as [|arg0 rest]; [discriminate Hret|].
  destruct (scanGlobal (cli.appFlags app ++ [cli.VersionFlag]) rest [arg0] [])
    as [[newArgs others]| |] eqn:Escan; [|discriminate Hret..].
  apply (scanGlobal_returns _ (length rest)) in Escan; [|lia].
  destruct Escan as (G & O & -> & -> & Hi & Hg & Ho).
  cbn [mbind Outcome_bind List.app] in Hret.
  assert (Hperm : Permutation rest (G ++ O)) by now apply Interleave_Permutation.
  destruct O as [|cmdName args'].
  - injection Hret as <-. split.
    + constructor. now rewrite app_nil_r in Hperm.
    + exists arg0, rest, G, []. repeat split; assumption.
  - destruct (findCommand (cli.appCommands app) cmdName) as [cmd|] eqn:Ecmd.
    + destruct (scanCommand (cli.cmdFlags cmd ++ [cli.HelpFlag]) args' args'
                  (arg0 :: G ++ [cmdName])%list [])
        as [[newArgs2 others2]| |] eqn:Escan2; [|discriminate Hret..].
      apply (scanCommand_returns _ _ (length args')) in Escan2; [|lia].
      destruct Escan2 as (F & P & -> & -> & Hi2 & Hf & Hp).
      cbn [mbind Outcome_bind List.app] in Hret. injection Hret as <-.
      assert (Hperm2 : Permutation args' (F ++ P)) by now apply Interleave_Permutation.
      split.
      * constructor. rewrite Hperm, Hperm2.
        rewrite <- !app_assoc. cbn. reflexivity.
      * exists arg0, rest, G, (cmdName :: args').
        repeat split; try assumption. rewrite Ecmd.
        exists F, P. repeat split; try assumption.
        rewrite <- !app_assoc. reflexivity.
    + injection Hret as <-. split.
      * constructor. exact Hperm.
      * exists arg0, rest, G, (cmdName :: args').
        repeat split; try assumption. now rewrite Ecmd.
Qed.

Definition sampleApp : cli.App :=
  cli.mkApp globalFlags
    [cmdMount [cli.mkFlag "d" ["background"] (cli.BoolValue false); cli.StringFlag "o" ""]
              "/var/jfsCache"].

(** C10, at [juicefs mount redis://localhost /mnt/jfs -d --cache-dir /x -v]. *)
Lemma C10_witness :
  reorderOptions sampleApp
    ["juicefs"; "mount"; "redis://localhost"; "/mnt/jfs"; "-d"; "--cache-dir"; "/x"; "-v"]
  = Returned ["juicefs"; "-v"; "mount"; "-d"; "--cache-dir"; "/x"; "redis://localhost"; "/mnt/jfs"]
  /\ Permutation
       ["juicefs"; "mount"; "redis://localhost"; "/mnt/jfs"; "-d"; "--cache-dir"; "/x"; "-v"]
       ["juicefs"; "-v"; "mount"; "-d"; "--cache-dir"; "/x"; "redis://localhost"; "/mnt/jfs"].
Proof.
  assert (H : reorderOptions sampleApp
    ["juicefs"; "mount"; "redis://localhost"; "/mnt/jfs"; "-d"; "--cache-dir"; "/x"; "-v"]
    = Returned ["juicefs"; "-v"; "mount"; "-d"; "--cache-dir"; "/x"; "redis://localhost"; "/mnt/jfs"])
    by reflexivity.
  split; [exact H|].
  exact (proj1 (C10_reorderOptions_permutes sampleApp _ _ H)).
Defined.

(** The two ways reorderOptions does not return: a flag that takes a value
    is the last argument, or an unknown dashed option follows the command. *)
Example reorderOptions_panics :
  reorderOptions sampleApp ["juicefs"; "mount"; "redis://localhost"; "/mnt/jfs"; "--cache-dir"]
  = Panicked "index out of range".
Proof. reflexivity. Qed.

Example reorderOptions_exits :
  reorderOptions sampleApp ["juicefs"; "mount"; "redis://localhost"; "/mnt/jfs"; "--bogus"]
  = Exited "unknown option: --bogus".
Proof. reflexivity. Qed.

(* ===================================================================== *)
(** ** The cached chunk store: remove *)
(* ===================================================================== *)

Section StoreRemove.

Import cachedstore.

(** A block that is in neither the cache nor the object storage. *)
Definition absent (s : Store) (id : BlockID) : Prop :=
  cache s !! id = None /\ remote s !! id = None.

Lemma removeBlock_absent s id :
  absent s id -> removeBlock (None, s) id = (None, s).
Proof.
  intros [Hc Hr]. unfold removeBlock, delete. rewrite Hr.
  rewrite (delete_id _ _ Hc). now destruct s.
Qed.

Lemma remove_all_absent ids s :
  Forall (absent s) ids -> fold_left removeBlock ids (None, s) = (None, s).
Proof.
  induction 1 as [|id ids Hid _ IH]; [reflexivity|].
  cbn [fold_left]. now rewrite (removeBlock_absent _ _ Hid).
Qed.

(** removeBlock never fails on this storage, and leaves the block absent. *)
Lemma removeBlock_result s id :
  exists s', removeBlock (None, s) id = (None, s')
             /\ absent s' id
             /\ (forall id', absent s id' -> absent s' id')
             /\ nextIndex s' = nextIndex s.
Proof.
  unfold removeBlock, delete.
  destruct (remote s !! id) as [d|] eqn:Hr.
  - eexists. split; [reflexivity|]. unfold absent. cbn.
    split; [split; apply lookup_delete_eq|]. split; [|reflexivity].
    intros id' [Hc Hr']. rewrite !lookup_delete.
    destruct (decide (id = id')); auto.
  - eexists. split; [reflexivity|]. unfold absent. cbn.
    split; [split; [apply lookup_delete_eq | exact Hr]|]. split; [|reflexivity].
    intros id' [Hc Hr']. rewrite !lookup_delete.
    destruct (decide (id = id')); auto.
Qed.

Lemma remove_fold_result ids : forall s,
  exists s', fold_left removeBlock ids (None, s) = (None, s')
             /\ Forall (absent s') ids
             /\ (forall id', absent s id' -> absent s' id')
             /\ nextIndex s' = nextIndex s.
Proof.
  induction ids as [|id ids IH]; intros s.
  - exists s. split; [reflexivity|]. split; [constructor|]. split; auto.
  - cbn [fold_left].
    destruct (removeBlock_result s id) as (s1 & -> & Habs & Hmono & Hnext).
    destruct (IH s1) as (s2 & -> & Hall & Hmono2 & Hnext2).
    exists s2. split; [reflexivity|]. split; [|split].
    + constructor; auto.
    + auto.
    + congruence.
Qed.

End StoreRemove.

(** Deleting twice: the first remove succeeds and leaves the addressed
    blocks absent, so the second finds nothing and changes nothing. *)
Lemma remove_then_remove (s : cachedstore.Store) (chunkID blockSize : Z) :
  (cachedstore.remove chunkID blockSize s).1 = None
  /\ cachedstore.remove chunkID blockSize (cachedstore.remove chunkID blockSize s).2
     = (None, (cachedstore.remove chunkID blockSize s).2).
Proof.
  unfold cachedstore.remove.
  destruct (remove_fold_result (cachedstore.addressed chunkID blockSize s) s)
    as (s' & -> & Habs & _ & Hnext).
  split; [reflexivity|]. cbn [snd].
  apply remove_all_absent.
  unfold cachedstore.addressed in *. now rewrite Hnext.
Qed.

(** C4: remove of blocks that are already absent from the cache and from
    the object storage returns success and changes nothing, for every chunk
    id and block size, and so does the handler of the metadata engine's
    delete message, which returns nil. *)
Theorem C4_remove_of_absent_block_succeeds
    (Slice : Type)
    (Compact : chunk.Config -> ChunkStore cachedstore.Store -> list Slice -> Z ->
               cachedstore.Store -> error * cachedstore.Store)
    (m : gmap meta.MsgType (MsgCallback Slice cachedstore.Store))
    (conf : chunk.Config) (s : cachedstore.Store) (chunkID blockSize : Z) :
  Forall (absent s) (cachedstore.addressed chunkID blockSize s) ->
  GoInt.isUint64 chunkID -> GoInt.isUint32 blockSize ->
  cachedstore.remove chunkID blockSize s = (None, s)
  /\ deliver (registerMetaMsg Compact m cachedstore.asChunkStore) meta.DeleteChunk
             [AnyUint64 chunkID; AnyUint32 blockSize] (mkWorld conf s)
     = Some (Returned (None, mkWorld conf s)).
Proof.
  intros Habs Hid Hsize.
  assert (Hrem : cachedstore.remove chunkID blockSize s = (None, s))
    by now apply remove_all_absent.
  split; [exact Hrem|].
  pose proof (registered_DeleteChunk Compact m cachedstore.asChunkStore) as Hreg.
  unfold deliver.
  destruct (registerMetaMsg Compact m cachedstore.asChunkStore !! meta.DeleteChunk)
    as [cb|]; [|discriminate Hreg].
  injection Hreg as ->.
  unfold onDeleteChunk. cbn. rewrite (toInt_uint32 _ Hsize), Hrem. reflexivity.
Qed.

(** A store in synchronous mode with blocks of three bytes. *)
Definition smallBlocks (writeback : bool) : chunk.Config :=
  chunk.mkConfig 3 "" 0 0 0 0 writeback 0 0 0 0 0 "" 0 (S754_zero false) 0 true true.

Definition abba : list cachedstore.Op :=
  [cachedstore.OpWrite 2 0 [x41; x41; x41; x41];
   cachedstore.OpWrite 2 1 [x42; x42];
   cachedstore.OpFlush 2].

(** C4, at the second DeleteChunk(2, 3) after chunk 2 was written in blocks
    of 3, 1 and 2 bytes and its block of size 3 already removed. *)
Lemma C4_witness :
  let s := (cachedstore.remove 2 3 (cachedstore.run (smallBlocks false) abba)).2 in
  cachedstore.remote (cachedstore.run (smallBlocks false) abba) !! (2, 0%nat, 3)
    = Some [x41; x41; x41]
  /\ cachedstore.remote s !! (2, 0%nat, 3) = None
  /\ cachedstore.remove 2 3 s = (None, s).
Proof.
  intros s. split; [reflexivity|]. split; [reflexivity|].
  refine (proj1 (C4_remove_of_absent_block_succeeds nat (fun _ _ _ _ st => (None, st)) ∅
                   (smallBlocks false) s 2 3 _ _ _)).
  - repeat constructor.
  - unfold GoInt.isUint64. lia.
  - unfold GoInt.isUint32. lia.
Defined.

(* ===================================================================== *)
(** ** The cached chunk store: read after write *)
(* ===================================================================== *)

Section ReadAfterWrite.

Import cachedstore.

(** The bytes of a block as a read finds them: in the cache, or else in the
    object storage. *)
Definition avail (s : Store) (id : BlockID) : option (list byte) :=
  match cache s !! id with
  | Some e => Some e.1
  | None => remote s !! id
  end.

(** The byte a read finds at position [p] of a chunk with sealed slices
    [sls], blocks of [B] bytes, and block contents [av]. *)
Definition resolve (B : nat) (av : BlockID -> option (list byte)) (sls : list Slice)
    (p : nat) : option byte :=
  match locate sls p with
  | None => None
  | Some sl =>
      match sliceBlocks sl !! ((p - sliceOff sl) / B)%nat with
      | None => None
      | Some id =>
          match av id with
          | None => None
          | Some data => data !! ((p - sliceOff sl) mod B)%nat
          end
      end
  end.

(** Every clean cache entry is in the object storage with the same bytes,
    and no block exists at an index the chunk has not given out yet. *)
Definition StoreOK (s : Store) : Prop :=
  (forall id data, cache s !! id = Some (data, Clean) -> remote s !! id = Some data)
  /\ (forall id : BlockID, (default 0%nat (nextIndex s !! id.1.1) <= id.1.2)%nat ->
                          cache s !! id = None /\ remote s !! id = None).

(** [s'] holds the same data as [s]: only the place of blocks (cache or
    object storage) and their state may differ. *)
Definition SameData (s s' : Store) : Prop :=
  (forall id, avail s' id = avail s id)
  /\ slices s' = slices s /\ buffers s' = buffers s /\ nextIndex s' = nextIndex s.

(** The store holds the flushed contents [F]. *)
Definition Holds (B : nat) (s : Store) (F : Z -> nat -> option byte) : Prop :=
  forall c p,
    resolve B (avail s) (default [] (slices s !! c)) p = F c p
    /\ (is_Some (locate (default [] (slices s !! c)) p) -> is_Some (F c p)).

Lemma SameData_refl s : SameData s s.
Proof. repeat split. Qed.

Lemma SameData_trans s1 s2 s3 : SameData s1 s2 -> SameData s2 s3 -> SameData s1 s3.
Proof.
  intros (A1 & B1 & C1 & D1) (A2 & B2 & C2 & D2).
  split; [intros id; now rewrite A2, A1 | repeat split; congruence].
Qed.

Lemma Holds_SameData B s s' F : SameData s s' -> Holds B s F -> Holds B s' F.
Proof.
  intros (Hav & Hsl & _ & _) H c p. rewrite Hsl.
  destruct (H c p) as [H1 H2]. split; [|exact H2].
  rewrite <- H1. unfold resolve.
  destruct (locate _ p); [|reflexivity].
  destruct (sliceBlocks _ !! _); [|reflexivity]. now rewrite Hav.
Qed.

(** *** Operations that only move blocks *)

Lemma upload_keeps id s :
  StoreOK s -> StoreOK (upload id s) /\ SameData s (upload id s).
Proof.
  intros [Hclean Hfresh]. unfold upload.
  destruct (cache s !! id) as [[data st]|] eqn:Hc; [|split; [split; assumption|apply SameData_refl]].
  destruct st; [|split; [split; assumption|apply SameData_refl]].
  cbn [put]. split; [split|].
  - intros id' d'. cbn. unfold confirmDurable.
    destruct (decide (id = id')) as [<-|Hne].
    + rewrite lookup_alter_eq, Hc, lookup_insert_eq. cbn. intros [= ->]. reflexivity.
    + rewrite lookup_alter_ne, lookup_insert_ne by assumption. apply Hclean.
  - intros id' Hi. cbn. unfold confirmDurable.
    destruct (Hfresh id' Hi) as [Hc' Hr'].
    assert (id <> id') by (intros ->; rewrite Hc in Hc'; discriminate).
    now rewrite lookup_alter_ne, lookup_insert_ne by assumption.
  - split; [|repeat split]. intros id'. unfold avail, confirmDurable. cbn.
    destruct (decide (id = id')) as [<-|Hne].
    + now rewrite lookup_alter_eq, Hc.
    + now rewrite lookup_alter_ne, lookup_insert_ne by assumption.
Qed.

Lemma uploads_keep ids : forall s,
  StoreOK s ->
  StoreOK (fold_left (fun st id => upload id st) ids s)
  /\ SameData s (fold_left (fun st id => upload id st) ids s).
Proof.
  induction ids as [|id ids IH]; intros s Hok; [split; [assumption|apply SameData_refl]|].
  cbn [fold_left]. destruct (upload_keeps id s Hok) as [Hok1 Hsame1].
  destruct (IH _ Hok1) as [Hok2 Hsame2].
  split; [assumption|]. eapply SameData_trans; eassumption.
Qed.

Lemma evictOne_keeps s id :
  StoreOK s ->
  let s' := mkStore (remote s) (evictOne (cache s) id) (buffers s) (slices s) (nextIndex s) in
  StoreOK s' /\ SameData s s'.
Proof.
  intros [Hclean Hfresh] s'. subst s'. unfold evictOne.
  destruct (cache s !! id) as [[data st]|] eqn:Hc.
  2:{ destruct s; split; [split; assumption|apply SameData_refl]. }
  destruct st.
  { destruct s; split; [split; assumption|apply SameData_refl]. }
  split; [split|].
  - intros id' d'. cbn. rewrite lookup_delete.
    destruct (decide (id = id')); [discriminate|apply Hclean].
  - intros id' Hi. cbn. destruct (Hfresh id' Hi) as [Hc' Hr'].
    split; [|assumption]. rewrite lookup_delete. now destruct (decide _).
  - split; [|repeat split]. intros id'. unfold avail. cbn. rewrite lookup_delete.
    destruct (decide (id = id')) as [<-|Hne]; [|reflexivity].
    rewrite Hc. cbn. now apply Hclean.
Qed.

Lemma evict_keeps victims : forall s,
  StoreOK s -> StoreOK (evict victims s) /\ SameData s (evict victims s).
Proof.
  unfold evict. induction victims as [|id victims IH]; intros s Hok.
  - cbn. destruct s. split; [assumption|apply SameData_refl].
  - cbn [fold_left].
    destruct (evictOne_keeps s id Hok) as [Hok1 Hsame1]. cbv zeta in *.
    destruct (IH _ Hok1) as [Hok2 Hsame2]. cbn in Hok2, Hsame2.
    split; [assumption|]. eapply SameData_trans; eassumption.
Qed.

Lemma fetch_keeps keep id s :
  StoreOK s ->
  StoreOK (fetch keep id s).2 /\ SameData s (fetch keep id s).2
  /\ (fetch keep id s).1 = match avail s id with
                           | Some data => inr data
                           | None => inl NotFound
                           end.
Proof.
  intros [Hclean Hfresh]. unfold fetch, lookup, avail, get.
  destruct (cache s !! id) as [[data st]|] eqn:Hc; cbn.
  { split; [split; assumption|]. split; [apply SameData_refl|reflexivity]. }
  destruct (remote s !! id) as [data|] eqn:Hr; cbn.
  2:{ split; [split; assumption|]. split; [apply SameData_refl|reflexivity]. }
  destruct keep; cbn.
  2:{ split; [split; assumption|]. split; [apply SameData_refl|reflexivity]. }
  split; [split|split; [split; [|repeat split]|reflexivity]].
  - intros id' d'. cbn. rewrite lookup_insert.
    destruct (decide (id = id')) as [<-|Hne]; [congruence|apply Hclean].
  - intros id' Hi. cbn. destruct (Hfresh id' Hi) as [Hc' Hr'].
    split; [|assumption]. rewrite lookup_insert_ne; [assumption|].
    intros ->. rewrite Hr in Hr'. discriminate.
  - intros id'. unfold avail. cbn. rewrite lookup_insert.
    destruct (decide (id = id')) as [<-|Hne]; [|reflexivity].
    now rewrite Hc, Hr.
Qed.

(** *** Blocks of a slice *)

Lemma numBlocks_covers B n k : (0 < B)%nat -> (k < n)%nat -> (k / B < numBlocks B n)%nat.
Proof.
  intros HB Hk. unfold numBlocks.
  replace (n + B - 1)%nat with ((n - 1) + 1 * B)%nat by lia.
  rewrite Nat.div_add by lia.
  pose proof (Nat.Div0.div_le_mono k (n - 1) B ltac:(lia)). lia.
Qed.

Lemma blocksOf_lookup B data j :
  (j < numBlocks B (length data))%nat ->
  blocksOf B data !! j = Some (take B (drop (j * B) data)).
Proof.
  intros Hj. unfold blocksOf.
  change (map ?f ?l) with (f <$> l).
  rewrite list_lookup_fmap, lookup_seq_lt by assumption. reflexivity.
Qed.

Lemma blocksOf_length B data : length (blocksOf B data) = numBlocks B (length data).
Proof. unfold blocksOf. now rewrite length_map, length_seq. Qed.

Lemma block_byte B (data : list byte) k :
  (0 < B)%nat -> take B (drop (k / B * B) data) !! (k mod B)%nat = data !! k.
Proof.
  intros HB.
  rewrite lookup_take_lt by (apply Nat.mod_upper_bound; lia).
  rewrite lookup_drop. f_equal.
  pose proof (Nat.div_mod_eq k B). lia.
Qed.

Lemma blockIDs_lookup c first pieces j (id : BlockID) :
  blockIDs c first pieces !! j = Some id ->
  exists piece, pieces !! j = Some piece
                /\ id.1.1 = c /\ id.1.2 = (first + j)%nat
                /\ id = (c, (first + j)%nat, Z.of_nat (length piece)).
Proof.
  unfold blockIDs. rewrite list_lookup_imap.
  destruct (pieces !! j) as [piece|]; [|discriminate].
  cbn. intros [= <-]. exists piece. repeat split.
Qed.

Lemma blockIDs_lookup_piece c first pieces j piece :
  pieces !! j = Some piece ->
  exists id : BlockID, blockIDs c first pieces !! j = Some id
                       /\ id.1.1 = c /\ id.1.2 = (first + j)%nat.
Proof.
  intros H. unfold blockIDs. rewrite list_lookup_imap, H. cbn.
  eexists. repeat split.
Qed.

Lemma blockIDs_elem c first pieces (id : BlockID) :
  id ∈ blockIDs c first pieces ->
  id.1.1 = c /\ (first <= id.1.2 < first + length pieces)%nat.
Proof.
  intros Hin. apply list_elem_of_lookup in Hin. destruct Hin as [j Hj].
  pose proof (lookup_lt_Some _ _ _ Hj) as Hlt. unfold blockIDs in Hlt.
  rewrite length_imap in Hlt.
  destruct (blockIDs_lookup _ _ _ _ _ Hj) as (piece & _ & H1 & H2 & _). lia.
Qed.

Lemma blockIDs_NoDup c first pieces : NoDup (blockIDs c first pieces).
Proof.
  apply NoDup_alt. intros i j id Hi Hj.
  destruct (blockIDs_lookup _ _ _ _ _ Hi) as (_ & _ & _ & Hi2 & _).
  destruct (blockIDs_lookup _ _ _ _ _ Hj) as (_ & _ & _ & Hj2 & _). lia.
Qed.

(** *** Staging *)

Lemma staged_other (l : list (BlockID * list byte)) :
  forall (ca : gmap BlockID (list byte * EntryState)) (id : BlockID),
    id ∉ l.*1 ->
    fold_left (fun ca b => stage b.1 b.2 ca) l ca !! id = ca !! id.
Proof.
  induction l as [|b l IH]; intros ca id Hnot; [reflexivity|].
  cbn [fold_left]. rewrite fmap_cons in Hnot. apply not_elem_of_cons in Hnot.
  destruct Hnot as [Hne Hnot]. rewrite (IH _ _ Hnot).
  unfold stage. now apply lookup_insert_ne.
Qed.

Lemma staged_in (l : list (BlockID * list byte)) :
  forall (ca : gmap BlockID (list byte * EntryState)) (j : nat) (id : BlockID) (d : list byte),
    NoDup l.*1 -> l !! j = Some (id, d) ->
    fold_left (fun ca b => stage b.1 b.2 ca) l ca !! id = Some (d, Staging).
Proof.
  induction l as [|b l IH]; intros ca j id d Hnd Hj; [discriminate|].
  rewrite fmap_cons in Hnd. apply NoDup_cons in Hnd. destruct Hnd as [Hnot Hnd].
  cbn [fold_left]. destruct j as [|j].
  - cbn in Hj. injection Hj as ->. cbn in Hnot.
    rewrite (staged_other _ _ _ Hnot). unfold stage. cbn. apply lookup_insert_eq.
  - cbn in Hj. eapply IH; eassumption.
Qed.

(** *** Sealing *)

Lemma Holds_ext B s F F' : (forall c p, F c p = F' c p) -> Holds B s F -> Holds B s F'.
Proof. intros Heq H c p. rewrite <- Heq. apply H. Qed.

(** Blocks only added: positions that resolved still resolve to the same
    byte. *)
Lemma resolve_more B (av av' : BlockID -> option (list byte)) sls p b :
  (forall id d, av id = Some d -> av' id = Some d) ->
  resolve B av sls p = Some b -> resolve B av' sls p = Some b.
Proof.
  intros Hmore. unfold resolve.
  destruct (locate sls p) as [sl|]; [|discriminate].
  destruct (sliceBlocks sl !! _) as [id|]; [|discriminate].
  destruct (av id) as [d|] eqn:Hav; [|discriminate].
  now rewrite (Hmore _ _ Hav).
Qed.

Lemma locate_cons sl sls p :
  locate (sl :: sls) p = if covers p sl then Some sl else locate sls p.
Proof. reflexivity. Qed.

Lemma seal_holds conf c s w F :
  (0 < blockSize conf)%nat ->
  StoreOK s -> Holds (blockSize conf) s F ->
  StoreOK (seal conf c s w)
  /\ Holds (blockSize conf) (seal conf c s w)
           (fun c' => if decide (c' = c) then overwrite (F c) w else F c')
  /\ buffers (seal conf c s w) = buffers s.
Proof.
  intros HB [Hclean Hfresh] Hholds.
  set (B := blockSize conf) in *.
  set (pieces := blocksOf B w.2).
  set (first := default 0%nat (nextIndex s !! c)).
  set (ids := blockIDs c first pieces).
  set (staged := fold_left (fun ca b => stage b.1 b.2 ca) (zip ids pieces) (cache s)).
  set (s1 := mkStore (remote s) staged (buffers s)
               (<[c := mkSlice w.1 (length w.2) ids :: default [] (slices s !! c)]> (slices s))
               (<[c := (first + length pieces)%nat]> (nextIndex s))).
  assert (Hlen : length ids = length pieces) by apply length_imap.
  assert (Hfst : (zip ids pieces).*1 = ids) by (apply fst_zip; lia).
  assert (Hnew : forall id : BlockID, id ∈ ids ->
                   cache s !! id = None /\ remote s !! id = None).
  { intros id Hin. apply blockIDs_elem in Hin. destruct Hin as [Hc Hi].
    apply Hfresh. rewrite Hc. fold first. lia. }
  assert (Hold : forall id : BlockID, id ∉ ids -> staged !! id = cache s !! id).
  { intros id Hnot. apply staged_other. now rewrite Hfst. }
  assert (Hstaged : forall j (id : BlockID) piece,
             ids !! j = Some id -> pieces !! j = Some piece ->
             staged !! id = Some (piece, Staging)).
  { intros j id piece Hid Hp. apply (staged_in _ _ j).
    - rewrite Hfst. apply blockIDs_NoDup.
    - apply lookup_zip_Some. split; assumption. }
  assert (Hok1 : StoreOK s1).
  { split.
    - intros id data. cbn. intros Hc.
      destruct (decide (id ∈ ids)) as [Hin|Hnot].
      + apply list_elem_of_lookup in Hin. destruct Hin as [j Hj].
        destruct (blockIDs_lookup _ _ _ _ _ Hj) as (piece & Hp & _).
        rewrite (Hstaged _ _ _ Hj Hp) in Hc. discriminate.
      + rewrite (Hold _ Hnot) in Hc. now apply Hclean.
    - intros id. cbn. intros Hi.
      assert (Hnot : id ∉ ids).
      { intros Hin. apply blockIDs_elem in Hin. destruct Hin as [Hc Hrange].
        rewrite Hc, lookup_insert_eq in Hi. cbn in Hi. lia. }
      rewrite (Hold _ Hnot). apply Hfresh.
      destruct (decide (id.1.1 = c)) as [Hc|Hc].
      + rewrite Hc, lookup_insert_eq in Hi. cbn in Hi. rewrite Hc. fold first. lia.
      + now rewrite lookup_insert_ne in Hi by congruence. }
  assert (Hmore : forall id d, avail s id = Some d -> avail s1 id = Some d).
  { intros id d. unfold avail. cbn.
    destruct (decide (id ∈ ids)) as [Hin|Hnot].
    - destruct (Hnew _ Hin) as [-> ->]. discriminate.
    - now rewrite (Hold _ Hnot). }
  assert (Hholds1 : Holds B s1 (fun c' => if decide (c' = c) then overwrite (F c) w else F c')).
  { intros c' p. cbn [slices s1]. destruct (decide (c' = c)) as [->|Hne].
    - rewrite lookup_insert_eq. cbn [from_option id]. unfold resolve.
      rewrite locate_cons. unfold overwrite, covers. cbn [sliceOff sliceLen].
      destruct ((w.1 <=? p)%nat && (p <? w.1 + length w.2)%nat) eqn:Ecov.
      + cbn [sliceOff sliceBlocks].
        apply andb_true_iff in Ecov. destruct Ecov as [E1 E2].
        apply Nat.leb_le in E1. apply Nat.ltb_lt in E2.
        assert (Hk : (p - w.1 < length w.2)%nat) by lia.
        assert (Hj : ((p - w.1) / B < numBlocks B (length w.2))%nat)
          by now apply numBlocks_covers.
        pose proof (blocksOf_lookup B w.2 _ Hj) as Hpiece. fold pieces in Hpiece.
        destruct (blockIDs_lookup_piece c first _ _ _ Hpiece) as (id & Hid & _).
        fold ids in Hid. rewrite Hid.
        unfold avail at 1. change (cache s1) with staged.
        rewrite (Hstaged _ _ _ Hid Hpiece). cbn [fst].
        rewrite block_byte by assumption. split; [reflexivity|].
        intros _. now apply lookup_lt_is_Some.
      + destruct (Hholds c p) as [H1 H2]. split; [|exact H2].
        destruct (locate (default [] (slices s !! c)) p) as [sl|] eqn:Eloc.
        * destruct (H2 ltac:(eauto)) as [b Hb]. rewrite Hb.
          rewrite Hb in H1.
          pose proof (resolve_more B _ _ _ p b Hmore H1) as Hres.
          unfold resolve in Hres. now rewrite Eloc in Hres.
        * rewrite <- H1. unfold resolve. now rewrite Eloc.
    - rewrite lookup_insert_ne by congruence.
      destruct (Hholds c' p) as [H1 H2]. split; [|exact H2].
      destruct (locate (default [] (slices s !! c')) p) as [sl|] eqn:Eloc.
      + destruct (H2 ltac:(eauto)) as [b Hb]. rewrite Hb. rewrite Hb in H1.
        now apply (resolve_more B _ _ _ p b Hmore).
      + rewrite <- H1. unfold resolve. now rewrite Eloc. }
  unfold seal. fold B pieces first ids staged s1.
  destruct (chunk.Writeback conf).
  - split; [assumption|]. split; [assumption|reflexivity].
  - destruct (uploads_keep ids s1 Hok1) as [Hok2 Hsame].
    split; [assumption|]. split.
    + eapply Holds_SameData; eassumption.
    + destruct Hsame as (_ & _ & Hb & _). exact Hb.
Qed.

Lemma seals_hold conf c ws : forall s F,
  (0 < blockSize conf)%nat ->
  StoreOK s -> Holds (blockSize conf) s F ->
  StoreOK (fold_left (seal conf c) ws s)
  /\ Holds (blockSize conf) (fold_left (seal conf c) ws s)
           (fun c' => if decide (c' = c) then fold_left overwrite ws (F c) else F c')
  /\ buffers (fold_left (seal conf c) ws s) = buffers s.
Proof.
  induction ws as [|w ws IH]; intros s F HB Hok Hholds.
  - cbn. split; [assumption|]. split; [|reflexivity].
    eapply Holds_ext; [|exact Hholds]. intros c' p. now destruct (decide (c' = c)) as [->|].
  - cbn [fold_left].
    destruct (seal_holds conf c s w F HB Hok Hholds) as (Hok1 & Hholds1 & Hbuf1).
    destruct (IH _ _ HB Hok1 Hholds1) as (Hok2 & Hholds2 & Hbuf2).
    split; [assumption|]. split; [|congruence].
    eapply Holds_ext; [|exact Hholds2]. intros c' p. cbn.
    destruct (decide (c' = c)) as [->|]; [|reflexivity].
    destruct (decide (c = c)); [reflexivity|contradiction].
Qed.

(** *** Reading *)

Lemma resolve_SameData B s s' sls p :
  SameData s s' -> resolve B (avail s') sls p = resolve B (avail s) sls p.
Proof.
  intros (Hav & _). unfold resolve.
  destruct (locate sls p); [|reflexivity].
  destruct (sliceBlocks _ !! _); [|reflexivity]. now rewrite Hav.
Qed.

Lemma readByte_keeps conf c off len p s :
  StoreOK s ->
  StoreOK (readByte conf c off len p s).2
  /\ SameData s (readByte conf c off len p s).2
  /\ forall b, resolve (blockSize conf) (avail s) (default [] (slices s !! c)) p = Some b ->
               (readByte conf c off len p s).1 = inr b.
Proof.
  intros Hok. unfold readByte, resolve.
  destruct (locate (default [] (slices s !! c)) p) as [sl|].
  2:{ cbn. split; [assumption|]. split; [apply SameData_refl|discriminate]. }
  destruct (sliceBlocks sl !! _) as [id|].
  2:{ cbn. split; [assumption|]. split; [apply SameData_refl|discriminate]. }
  destruct (fetch_keeps (admits conf off len sl ((p - sliceOff sl) / blockSize conf)) id s Hok)
    as (Hok1 & Hsame & Hres).
  destruct (fetch _ id s) as [r s1]. cbn [fst snd] in *.
  destruct (avail s id) as [data|]; subst r.
  - destruct (data !! _) as [b|]; cbn; (split; [assumption|]); (split; [assumption|]).
    + now intros b' [= ->].
    + discriminate.
  - cbn. split; [assumption|]. split; [assumption|discriminate].
Qed.

Lemma readFrom_keeps conf c off len n : forall p s,
  StoreOK s ->
  StoreOK (readFrom conf c off len p n s).2 /\ SameData s (readFrom conf c off len p n s).2.
Proof.
  induction n as [|n IH]; intros p s Hok; [split; [assumption|apply SameData_refl]|].
  cbn [readFrom].
  destruct (readByte_keeps conf c off len p s Hok) as (Hok1 & Hsame1 & _).
  destruct (readByte conf c off len p s) as [[e|b] s1]; cbn [snd] in *.
  - split; assumption.
  - destruct (IH (S p) s1 Hok1) as (Hok2 & Hsame2).
    destruct (readFrom conf c off len (S p) n s1) as [[e|bs] s2]; cbn [snd] in *.
    + split; [assumption|]. eapply SameData_trans; eassumption.
    + split; [assumption|]. eapply SameData_trans; eassumption.
Qed.

Lemma readFrom_bytes conf c off len n : forall p s,
  StoreOK s ->
  (forall i, (i < n)%nat ->
     is_Some (resolve (blockSize conf) (avail s) (default [] (slices s !! c)) (p + i))) ->
  exists data,
    (readFrom conf c off len p n s).1 = inr data
    /\ length data = n
    /\ forall i, (i < n)%nat ->
         data !! i = resolve (blockSize conf) (avail s) (default [] (slices s !! c)) (p + i)%nat.
Proof.
  induction n as [|n IH]; intros p s Hok Hall.
  - exists []. cbn. split; [reflexivity|]. split; [reflexivity|]. intros i Hi. lia.
  - cbn [readFrom].
    destruct (readByte_keeps conf c off len p s Hok) as (Hok1 & Hsame1 & Hb).
    destruct (Hall 0%nat ltac:(lia)) as [b Hb0]. rewrite Nat.add_0_r in Hb0.
    specialize (Hb b Hb0).
    destruct (readByte conf c off len p s) as [r s1]. cbn [fst snd] in *. subst r.
    assert (Hsl : slices s1 = slices s) by (destruct Hsame1 as (_ & H & _); exact H).
    destruct (IH (S p) s1 Hok1) as (data & Hread & Hlen & Hdata).
    { intros i Hi. rewrite Hsl, (resolve_SameData _ _ _ _ _ Hsame1).
      replace (S p + i)%nat with (p + S i)%nat by lia. apply Hall. lia. }
    destruct (readFrom conf c off len (S p) n s1) as [r s2]. cbn [fst] in Hread. subst r.
    exists (b :: data). split; [reflexivity|]. split; [cbn; now rewrite Hlen|].
    intros [|i] Hi.
    + cbn. now rewrite Nat.add_0_r.
    + cbn. rewrite Hdata by lia.
      rewrite Hsl, (resolve_SameData _ _ _ _ _ Hsame1).
      f_equal. lia.
Qed.

(** *** Histories *)

(** The store after a history holds what the history wrote and flushed. *)
Definition Inv (conf : chunk.Config) (s : Store) (h : Written) : Prop :=
  StoreOK s
  /\ Holds (blockSize conf) s (flushed h)
  /\ forall c, default [] (buffers s !! c) = pending h c.

Lemma Inv_empty conf : Inv conf empty (mkWritten (fun _ => []) (fun _ _ => None)).
Proof.
  split; [split|split].
  - intros id data H. cbn in H. rewrite lookup_empty in H. discriminate.
  - intros id _. cbn. now rewrite !lookup_empty.
  - intros c p. cbn. rewrite lookup_empty. cbn. split; [reflexivity|].
    intros [x Hx]. discriminate.
  - intros c. cbn. now rewrite lookup_empty.
Qed.

Lemma Inv_SameData conf s s' h : StoreOK s' -> SameData s s' -> Inv conf s h -> Inv conf s' h.
Proof.
  intros Hok Hsame (_ & Hholds & Hbuf). split; [assumption|]. split.
  - eapply Holds_SameData; eassumption.
  - intros c. destruct Hsame as (_ & _ & Hb & _). rewrite Hb. apply Hbuf.
Qed.

Lemma Inv_step conf s h o :
  (0 < blockSize conf)%nat -> Inv conf s h -> Inv conf (step conf s o) (record h o).
Proof.
  intros HB Hinv. pose proof Hinv as (Hok & Hholds & Hbuf).
  destruct o as [c off data|c|id|victims|c off len]; cbn [step record].
  - unfold write. destruct data as [|b data]; [exact Hinv|]. cbn [snd].
    split; [exact Hok|]. split; [exact Hholds|].
    intros c'. cbn. rewrite lookup_insert.
    destruct (decide (c = c')) as [->|Hne].
    + cbn. rewrite Hbuf. now destruct (decide (c' = c')).
    + rewrite Hbuf. destruct (decide (c' = c)); [congruence|reflexivity].
  - unfold flush. cbn [snd].
    destruct (seals_hold conf c (default [] (buffers s !! c)) s (flushed h) HB Hok Hholds)
      as (Hok1 & Hholds1 & Hbuf1).
    rewrite (Hbuf c) in Hok1, Hholds1, Hbuf1 |- *.
    split; [exact Hok1|]. split; [exact Hholds1|].
    intros c'. cbn. rewrite lookup_delete, Hbuf1.
    destruct (decide (c = c')) as [->|Hne].
    + now destruct (decide (c' = c')).
    + rewrite Hbuf. destruct (decide (c' = c)); [congruence|reflexivity].
  - destruct (upload_keeps id s Hok) as [Hok1 Hsame]. eapply Inv_SameData; eassumption.
  - destruct (evict_keeps victims s Hok) as [Hok1 Hsame]. eapply Inv_SameData; eassumption.
  - unfold read.
    destruct (readFrom_keeps conf c off len len off s Hok) as [Hok1 Hsame].
    eapply Inv_SameData; eassumption.
Qed.

Lemma Inv_run conf ops : forall s h,
  (0 < blockSize conf)%nat -> Inv conf s h ->
  Inv conf (fold_left (step conf) ops s) (fold_left record ops h).
Proof.
  induction ops as [|o ops IH]; intros s h HB Hinv; [exact Hinv|].
  cbn [fold_left]. apply IH; [assumption|]. now apply Inv_step.
Qed.

End ReadAfterWrite.

(** C3: after any history of writes, flushes, delayed uploads, cache
    evictions and reads, a read of a range of which every byte was written
    and flushed returns exactly the last bytes written there and flushed,
    also when the cached copies were evicted and the blocks come from the
    object storage. *)
Theorem C3_read_after_write
    (conf : chunk.Config) (ops : list cachedstore.Op) (c : Z) (off len : nat) :
  0 < chunk.BlockSize conf ->
  (forall p, (off <= p < off + len)%nat ->
             is_Some (cachedstore.flushed (cachedstore.written ops) c p)) ->
  exists data : list byte,
    (cachedstore.read conf c off len (cachedstore.run conf ops)).1 = inr data
    /\ length data = len
    /\ forall i, (i < len)%nat ->
         data !! i = cachedstore.flushed (cachedstore.written ops) c (off + i)%nat.
Proof.
  intros HB Hwritten.
  assert (HB' : (0 < cachedstore.blockSize conf)%nat)
    by (unfold cachedstore.blockSize; lia).
  pose proof (Inv_run conf ops cachedstore.empty _ HB' (Inv_empty conf))
    as (Hok & Hholds & _).
  fold (cachedstore.run conf ops) in Hok, Hholds.
  fold (cachedstore.written ops) in Hholds.
  unfold cachedstore.read.
  destruct (readFrom_bytes conf c off len len off (cachedstore.run conf ops) Hok)
    as (data & Hread & Hlen & Hdata).
  { intros i Hi. destruct (Hholds c (off + i)%nat) as [-> _]. apply Hwritten. lia. }
  exists data. split; [exact Hread|]. split; [exact Hlen|].
  intros i Hi. rewrite (Hdata i Hi). now destruct (Hholds c (off + i)%nat) as [-> _].
Qed.

Definition abbaEvicted : list cachedstore.Op :=
  (abba ++ [cachedstore.OpEvict [(2, 0%nat, 3); (2, 1%nat, 1); (2, 2%nat, 2)]])%list.

(** C3, at the history "AAAA" at offset 0, "BB" at offset 1, flush, cache
    cleared: the read of the four bytes gives "ABBA", from the object
    storage. *)
Lemma C3_witness :
  cachedstore.cache (cachedstore.run (smallBlocks false) abbaEvicted) = ∅
  /\ (cachedstore.read (smallBlocks false) 2 0 4
        (cachedstore.run (smallBlocks false) abbaEvicted)).1
     = inr [x41; x42; x42; x41].
Proof.
  split; [reflexivity|].
  destruct (C3_read_after_write (smallBlocks false) abbaEvicted 2 0 4) as (data & -> & Hlen & Hdata).
  - reflexivity.
  - intros p Hp.
    assert (Hcases : p = 0%nat \/ p = 1%nat \/ p = 2%nat \/ p = 3%nat) by lia.
    destruct Hcases as [-> | [-> | [-> | ->]]]; vm_compute; eauto.
  - destruct data as [|b0 [|b1 [|b2 [|b3 [|b4 data]]]]]; try discriminate Hlen.
    pose proof (Hdata 0%nat ltac:(lia)) as H0.
    pose proof (Hdata 1%nat ltac:(lia)) as H1.
    pose proof (Hdata 2%nat ltac:(lia)) as H2.
    pose proof (Hdata 3%nat ltac:(lia)) as H3.
    vm_compute in H0, H1, H2, H3.
    injection H0 as ->. injection H1 as ->. injection H2 as ->. injection H3 as ->.
    reflexivity.
Defined.
